(** * A private star-registry blockchain: the ledger core

    Shallow embedding of [src/time.js] (class [Time]) and of the class
    [Blockchain] that follows it in the same source file, together with
    the properties of the admission pipeline ([_addBlock]), the chain
    validator ([validateChain]), the ownership gate ([submitStar]) and
    the read-only queries.

    Conventions of the embedding.
    - A JavaScript string is a [string] whose characters are UTF-16 code
      units below 256.
    - A JavaScript number that the program handles is either [NaN] or an
      integer; integers are kept exact (the program only meets
      second-granularity timestamps and array lengths, which lie far
      inside the range where JavaScript arithmetic is exact).
    - A [hash] or [previousBlockHash] field holds a string or no value;
      no value is [None].  The program never sets one of these fields
      to [null] and the other to [undefined], so one absent value is
      enough.
    - A promise is represented by the state it ends in: [Resolved],
      [Rejected] or, when nothing ever settles it, [Pending].  Calls are
      run one at a time, to completion. *)

From Stdlib Require Import ZArith List String Ascii Bool Lia DecimalString.
From Stdlib Require Decimal DecimalFacts DecimalPos.
Import ListNotations.

Local Open Scope string_scope.
Local Open Scope Z_scope.

(** ** JavaScript primitives used by the program *)

Module JS.

Inductive Number : Type :=
| NaN
| Num (n : Z).

(** [a - b] *)
Definition sub (a b : Number) : Number :=
  match a, b with
  | Num x, Num y => Num (x - y)
  | _, _ => NaN
  end.

(** [a < b]: every comparison with [NaN] is false. *)
Definition lt (a b : Number) : bool :=
  match a, b with
  | Num x, Num y => x <? y
  | _, _ => false
  end.

(** [String(n)] for an integer. *)
Definition Z_toString (n : Z) : string :=
  NilZero.string_of_int (Z.to_int n).

Definition nat_toString (n : nat) : string := Z_toString (Z.of_nat n).

Definition Number_toString (x : Number) : string :=
  match x with
  | NaN => "NaN"
  | Num n => Z_toString n
  end.

(** [s.slice(0, -3)]: everything but the last three code units, and
    the empty string when there are no more than three. *)
Definition slice_0_minus3 (s : string) : string :=
  substring 0 (String.length s - 3) s.

(** [s.split(sep)] for a one-character separator. *)
Fixpoint split (sep : ascii) (s : string) : list string :=
  match s with
  | EmptyString => [EmptyString]
  | String c rest =>
      if Ascii.eqb c sep then EmptyString :: split sep rest
      else match split sep rest with
           | piece :: pieces => String c piece :: pieces
           | [] => [String c EmptyString]
           end
  end.

(** White space skipped by [parseInt], among the code units below 256:
    TAB, LF, VT, FF, CR, SP and NBSP. *)
Definition isWhiteSpace (c : ascii) : bool :=
  let n := nat_of_ascii c in
  (Nat.eqb n 9 || Nat.eqb n 10 || Nat.eqb n 11 || Nat.eqb n 12
   || Nat.eqb n 13 || Nat.eqb n 32 || Nat.eqb n 160)%bool.

Fixpoint trimStart (s : string) : string :=
  match s with
  | String c rest => if isWhiteSpace c then trimStart rest else s
  | EmptyString => s
  end.

(** Value of a character as a digit: [0-9], then [a-z] or [A-Z] for
    10 to 35. *)
Definition digitValue (c : ascii) : option Z :=
  let n := Z.of_nat (nat_of_ascii c) in
  if (48 <=? n) && (n <=? 57) then Some (n - 48)
  else if (97 <=? n) && (n <=? 122) then Some (n - 87)
  else if (65 <=? n) && (n <=? 90) then Some (n - 55)
  else None.

(** Longest prefix of radix-[R] digits; [acc] is [None] while no digit
    has been read. *)
Fixpoint parseDigits (R : Z) (s : string) (acc : option Z) : option Z :=
  match s with
  | EmptyString => acc
  | String c rest =>
      match digitValue c with
      | Some d =>
          if d <? R
          then parseDigits R rest
                 (Some (match acc with Some a => a * R + d | None => d end))
          else acc
      | None => acc
      end
  end.

(** [parseInt(s)] with no radix argument. *)
Definition parseInt (input : string) : Number :=
  let trimmed := trimStart input in
  let '(sign, unsigned) :=
    match trimmed with
    | String "-" rest => (-1, rest)
    | String "+" rest => (1, rest)
    | _ => (1, trimmed)
    end in
  let '(R, digits) :=
    match unsigned with
    | String "0" (String "x" rest) => (16, rest)
    | String "0" (String "X" rest) => (16, rest)
    | _ => (10, unsigned)
    end in
  match parseDigits R digits None with
  | None => NaN
  | Some n => Num (sign * n)
  end.

(** [parseInt(v)] where [v] is an array element that may be
    [undefined]: the argument is first converted to a string. *)
Definition parseInt_element (v : option string) : Number :=
  match v with
  | Some s => parseInt s
  | None => parseInt "undefined"
  end.

(** [`${v}`] for a field holding a string or [null]. *)
Definition template (v : option string) : string :=
  match v with
  | Some s => s
  | None => "null"
  end.

(** [a === b] on fields holding a string or [null]. *)
Definition strictEq (a b : option string) : bool :=
  match a, b with
  | Some x, Some y => String.eqb x y
  | None, None => true
  | _, _ => false
  end.

(** [arr[i]] *)
Definition index {A : Type} (arr : list A) (i : Z) : option A :=
  if i <? 0 then None else nth_error arr (Z.to_nat i).

(** [arr.pop()], for its effect on the array. *)
Definition pop {A : Type} (arr : list A) : list A := removelast arr.

(** [arr.push(x)] *)
Definition push {A : Type} (arr : list A) (x : A) : list A := arr ++ [x].

End JS.

(** ** Promises *)

Inductive Reason : Type :=
| ErrorLog (errorLog : list string)   (* [reject(errorLog)] *)
| Message (text : string)             (* [reject('...')] *)
| TypeError.                          (* a property read on [undefined] *)

Inductive Promise (A : Type) : Type :=
| Resolved (value : A)
| Rejected (reason : Reason)
| Pending.

Arguments Resolved {A} value.
Arguments Rejected {A} reason.
Arguments Pending {A}.

(** ** Blocks *)

(** The object handed to [new Block(...)]: [{data: 'Genesis Block'}] or
    [{owner, message, signature, star}].  A star is kept as opaque text. *)
Definition Star : Type := string.

Inductive Data : Type :=
| GenesisData (data : string)
| StarData (owner message signature : string) (star : Star).

(** Modelled from the spec: the class [Block] of [block.js], which is
    not part of the sources.  It has the identity fields [height],
    [time], [previousBlockHash] and [hash] that [Blockchain] reads and
    writes, and an opaque payload built from the constructor's argument. *)
Record Block : Type := mkBlock {
  hash : option string;
  height : Z;
  body : Data;
  time : JS.Number;
  previousBlockHash : option string
}.

(** Modelled from the spec: [new Block(data)], a candidate that carries
    the payload only, none of its identity fields being set. *)
Definition new_Block (data : Data) : Block :=
  {| hash := None; height := 0; body := data; time := JS.Num 0;
     previousBlockHash := None |}.

Definition with_height (v : Z) (b : Block) : Block :=
  {| hash := hash b; height := v; body := body b; time := time b;
     previousBlockHash := previousBlockHash b |}.

Definition with_time (v : JS.Number) (b : Block) : Block :=
  {| hash := hash b; height := height b; body := body b; time := v;
     previousBlockHash := previousBlockHash b |}.

Definition with_previousBlockHash (v : option string) (b : Block) : Block :=
  {| hash := hash b; height := height b; body := body b; time := time b;
     previousBlockHash := v |}.

Definition with_hash (v : option string) (b : Block) : Block :=
  {| hash := v; height := height b; body := body b; time := time b;
     previousBlockHash := previousBlockHash b |}.

(** ** The world a call runs in *)

(** The [Blockchain] object together with what its calls observe of
    their environment: how many times the wall clock has been read, and
    the calls made to [bitcoinMessage.verify]. *)
Record World : Type := mkWorld {
  chain : list Block;                          (* [this.chain] *)
  this_height : Z;                             (* [this.height] *)
  ticks : nat;                                 (* readings of [new Date()] *)
  verify_calls : list (string * string * string)
                                               (* (message, address, signature) *)
}.

Definition with_chain (c : list Block) (w : World) : World :=
  {| chain := c; this_height := this_height w; ticks := ticks w;
     verify_calls := verify_calls w |}.

(** Computations that read and change the world. *)
Definition M (A : Type) : Type := World -> A * World.

Definition ret {A : Type} (a : A) : M A := fun w => (a, w).

Definition bind {A B : Type} (m : M A) (k : A -> M B) : M B :=
  fun w => let (a, w') := m w in k a w'.

Notation "x <- m ;; k" := (bind m (fun x => k))
  (at level 61, m at next level, right associativity).
Notation "m ;;; k" := (bind m (fun _ => k))
  (at level 61, right associativity).

Definition get_chain : M (list Block) := fun w => (chain w, w).

Definition set_chain (c : list Block) : M unit :=
  fun w => (tt, with_chain c w).

Definition MESSAGE_TIME_INDEX : nat := 1.

Definition SIGNATURE_INVALID : Reason := Message "Signature is invalid".

Definition VALIDATION_TIME_EXCEEDED : Reason :=
  Message "Exceeded validation time of 5 minutes".

Definition NO_BLOCK_WITH_HASH : Reason :=
  Message "No block with given hash exists".

(** The two messages that [validateChain] writes to its error log. *)
Definition linkage_message (index : nat) (block previousBlock : Block)
  : string :=
  "Block " ++ JS.nat_toString index ++ " previousBlockHash set to "
  ++ JS.template (previousBlockHash block)
  ++ ", but actual previous block hash was "
  ++ JS.template (hash previousBlock).

Definition invalid_message (index : nat) (invalidBlock : Block) : string :=
  "Block " ++ JS.nat_toString index ++ " hash ("
  ++ JS.template (hash invalidBlock) ++ ") is invalid".

(** ** External collaborators

    [Date_getTime k] is the number of milliseconds that the [k]-th
    reading of [new Date().getTime()] returns; [SHA256 s] is
    [SHA256(s).toString()]; [JSON_stringify] is [JSON.stringify] on a
    block.  [bitcoinMessage_verify] is [bitcoinMessage.verify], which
    returns [true] or [false] for a signature that it can decode and
    throws for one that it cannot (a malformed signature or address).
    [Block_validate] and [Block_getBData] are the methods [validate] and
    [getBData] of [Block] ([block.js] is not part of the sources), by
    the interface that the specification gives them: the first answers
    whether the stored hash of the block is the recomputed one, the
    second decodes the payload or yields nothing. *)

(** What a call to [bitcoinMessage.verify] ends in. *)
Inductive Verdict : Type :=
| Returns (verified : bool)
| Throws.

Class Collaborators : Type := {
  Date_getTime : nat -> Z;
  SHA256 : string -> string;
  JSON_stringify : Block -> string;
  Block_validate : Block -> bool;
  Block_getBData : Block -> option Data;
  bitcoinMessage_verify : string -> string -> string -> Verdict
}.

(** ** A concrete set of collaborators

    Stand-ins for the clock, the digest, the serializer, the methods of
    [Block] and the signature check, on which the model can be run. *)

Module Demo.

(** A clock that starts at second 1000 and advances by 200 seconds
    from one reading to the next. *)
Definition Date_getTime (k : nat) : Z := 1000000 + 200000 * Z.of_nat k.

(** A symbolic digest. *)
Definition SHA256 (s : string) : string := "sha256(" ++ s ++ ")".

Definition Data_toString (d : Data) : string :=
  match d with
  | GenesisData data => "{data:" ++ data ++ "}"
  | StarData owner message signature star =>
      "{owner:" ++ owner ++ ",message:" ++ message
      ++ ",signature:" ++ signature ++ ",star:" ++ star ++ "}"
  end.

Definition JSON_stringify (b : Block) : string :=
  "{hash:" ++ JS.template (hash b)
  ++ ",height:" ++ JS.Z_toString (height b)
  ++ ",body:" ++ Data_toString (body b)
  ++ ",time:" ++ JS.Number_toString (time b)
  ++ ",previousBlockHash:" ++ JS.template (previousBlockHash b) ++ "}".

(** Recompute the hash with the hash field cleared, compare. *)
Definition validate (b : Block) : bool :=
  JS.strictEq (hash b) (Some (SHA256 (JSON_stringify (with_hash None b)))).

(** The payload of a star block; nothing for the genesis block. *)
Definition getBData (b : Block) : option Data :=
  match body b with
  | GenesisData _ => None
  | StarData _ _ _ _ => Some (body b)
  end.

Definition sign (address message : string) : string :=
  "signed(" ++ address ++ "," ++ message ++ ")".

(** A signature is well formed when it has the shape that [sign]
    gives; [verify] throws on any other text, as the library does on a
    signature that it cannot decode. *)
Definition well_formed (signature : string) : bool :=
  String.prefix "signed(" signature.

Definition verify (message address signature : string) : Verdict :=
  if well_formed signature
  then Returns (String.eqb signature (sign address message))
  else Throws.

Definition collaborators : Collaborators :=
  Build_Collaborators Date_getTime SHA256 JSON_stringify validate getBData
    verify.

End Demo.

(** ** The class [Blockchain] *)

Section Blockchain.

Context {env : Collaborators}.

(** [Time.now()]:
    [parseInt(new Date().getTime().toString().slice(0, -3))] *)
Definition Time_now : M JS.Number :=
  fun w =>
    (JS.parseInt (JS.slice_0_minus3 (JS.Z_toString (Date_getTime (ticks w)))),
     {| chain := chain w; this_height := this_height w;
        ticks := S (ticks w); verify_calls := verify_calls w |}).

(** [bitcoinMessage.verify(message, address, signature)], recorded. *)
Definition verify (message address signature : string) : M Verdict :=
  fun w =>
    (bitcoinMessage_verify message address signature,
     {| chain := chain w; this_height := this_height w;
        ticks := ticks w;
        verify_calls := (message, address, signature) :: verify_calls w |}).

(** *** validateChain *)

(** Body of the first [forEach]: the linkage check of one block.
    [None] is the [TypeError] raised by [previousBlock.hash] when
    [self.chain[index - 1]] is [undefined]. *)
Definition check_linkage (self_chain : list Block) (block : Block)
  (index : nat) (errorLog : list string) : option (list string) :=
  if 0 <? height block then
    match JS.index self_chain (Z.of_nat index - 1) with
    | Some previousBlock =>
        if negb (JS.strictEq (previousBlockHash block) (hash previousBlock))
        then Some (JS.push errorLog
                     (linkage_message index block previousBlock))
        else Some errorLog
    | None => None
    end
  else Some errorLog.

(** [self.chain.forEach((block, index) => ...)], from position
    [index] on; [blocks] is what remains to visit. *)
Fixpoint forEach_linkage (self_chain blocks : list Block) (index : nat)
  (errorLog : list string) : option (list string) :=
  match blocks with
  | [] => Some errorLog
  | block :: rest =>
      match check_linkage self_chain block index errorLog with
      | Some errorLog' => forEach_linkage self_chain rest (S index) errorLog'
      | None => None
      end
  end.

(** [validatedBlocks.forEach((valid, index) => ...)]; [None] is the
    [TypeError] of [invalidBlock.hash] on an [undefined] block. *)
Fixpoint forEach_validated (self_chain : list Block)
  (validatedBlocks : list bool) (index : nat) (errorLog : list string)
  : option (list string) :=
  match validatedBlocks with
  | [] => Some errorLog
  | valid :: rest =>
      if negb valid then
        match JS.index self_chain (Z.of_nat index) with
        | Some invalidBlock =>
            forEach_validated self_chain rest (S index)
              (JS.push errorLog (invalid_message index invalidBlock))
        | None => None
        end
      else forEach_validated self_chain rest (S index) errorLog
  end.

(** [validateChain()].  An exception in the executor rejects the
    promise; one in the [then] callback would leave it unsettled. *)
Definition validateChain (self_chain : list Block) : Promise (list string) :=
  match forEach_linkage self_chain self_chain 0 [] with
  | None => Rejected TypeError
  | Some errorLog =>
      let validatedBlocks := map Block_validate self_chain in
      match forEach_validated self_chain validatedBlocks 0 errorLog with
      | Some errorLog' => Resolved errorLog'
      | None => Pending
      end
  end.

(** *** _addBlock *)

(** Lines 72 to 82: the identity fields given to the candidate,
    [now] being the value that [Time.now()] returned.  The last block
    is read at [length - 1], which holds a block whenever the length is
    positive. *)
Definition identify (self_chain : list Block) (now : JS.Number)
  (block : Block) : Block :=
  let block := with_height (Z.of_nat (List.length self_chain)) block in
  let block := with_time now block in
  let block :=
    if (0 <? List.length self_chain)%nat then
      match JS.index self_chain (Z.of_nat (List.length self_chain) - 1) with
      | Some previousBlock =>
          with_previousBlockHash (hash previousBlock) block
      | None => block
      end
    else block in
  with_hash (Some (SHA256 (JSON_stringify block))) block.

(** [_addBlock(block)].  The candidate is an object of its own, not
    one that the chain already holds: every caller passes the result of
    [new Block].  [validateChain()] has a [then] handler and no
    [catch]: when it rejects, the promise of [_addBlock] is never
    settled and the pushed block stays. *)
Definition _addBlock (block : Block) : M (Promise Block) :=
  self_chain <- get_chain ;;
  now <- Time_now ;;
  let block := identify self_chain now block in
  set_chain (JS.push self_chain block) ;;;
  pushed <- get_chain ;;
  match validateChain pushed with
  | Resolved errorLog =>
      if (0 <? List.length errorLog)%nat then
        set_chain (JS.pop pushed) ;;;
        ret (Rejected (ErrorLog errorLog))
      else ret (Resolved block)
  | Rejected _ => ret Pending
  | Pending => ret Pending
  end.

(** *** constructor and initializeChain *)

Definition initializeChain : M (Promise unit) :=
  fun w =>
    if this_height w =? -1 then
      let block := new_Block (GenesisData "Genesis Block") in
      match _addBlock block w with
      | (Resolved _, w') => (Resolved tt, w')
      | (Rejected reason, w') => (Rejected reason, w')
      | (Pending, w') => (Pending, w')
      end
    else (Resolved tt, w).

(** [new Blockchain()], in an environment where the clock has been
    read [ticks0] times and [verify] called as [calls0] records. *)
Definition constructor (ticks0 : nat)
  (calls0 : list (string * string * string)) : World :=
  snd (initializeChain
         {| chain := []; this_height := -1; ticks := ticks0;
            verify_calls := calls0 |}).

(** *** requestMessageOwnershipVerification *)

Definition requestMessageOwnershipVerification (address : string)
  : M (Promise string) :=
  time <- Time_now ;;
  let message :=
    address ++ ":" ++ JS.Number_toString time ++ ":starRegistry" in
  ret (Resolved message).

(** *** submitStar *)

(** The executor is an [async] function without [try]: when
    [bitcoinMessage.verify] throws, neither [resolve] nor [reject] is
    called and the promise of [submitStar] is never settled. *)
Definition submitStar (address message signature : string) (star : Star)
  : M (Promise Block) :=
  let messageTime :=
    JS.parseInt_element
      (nth_error (JS.split ":" message) MESSAGE_TIME_INDEX) in
  currentTime <- Time_now ;;
  if JS.lt (JS.sub currentTime messageTime) (JS.Num (5 * 60)) then
    verdict <- verify message address signature ;;
    match verdict with
    | Returns verified =>
        if verified then
          let block := new_Block (StarData address message signature star) in
          _addBlock block
        else ret (Rejected SIGNATURE_INVALID)
    | Throws => ret Pending
    end
  else ret (Rejected VALIDATION_TIME_EXCEEDED).

(** *** getBlockByHash, getBlockByHeight, getStarsByWalletAddress *)

Definition getBlockByHash (h : option string) : M (Promise Block) :=
  self_chain <- get_chain ;;
  match filter (fun block => JS.strictEq (hash block) h) self_chain with
  | block :: _ => ret (Resolved block)
  | [] => ret (Rejected NO_BLOCK_WITH_HASH)
  end.

(** Resolves with the block, or with [null] ([None]). *)
Definition getBlockByHeight (h : Z) : M (Promise (option Block)) :=
  self_chain <- get_chain ;;
  match nth_error (filter (fun p => height p =? h) self_chain) 0 with
  | Some block => ret (Resolved (Some block))
  | None => ret (Resolved None)
  end.

(** [block && block.owner === address] on a decoded payload. *)
Definition owned_by (address : string) (decoded : option Data) : bool :=
  match decoded with
  | Some (StarData owner _ _ _) => String.eqb owner address
  | Some (GenesisData _) => false
  | None => false
  end.

(** [block.star] on a decoded payload that passed the filter;
    [undefined] ([None]) where there is no such field. *)
Definition star_of (decoded : option Data) : option Star :=
  match decoded with
  | Some (StarData _ _ _ star) => Some star
  | _ => None
  end.

Definition getStarsByWalletAddress (address : string)
  : M (Promise (list (option Star))) :=
  self_chain <- get_chain ;;
  let decodedBlocks := map Block_getBData self_chain in
  let stars := map star_of (filter (owned_by address) decodedBlocks) in
  ret (Resolved stars).

(** *** Calls and the chains they build *)

(** The writes and clock readings that a client can cause: the
    admission of a fresh block built from a payload, a star
    submission, a challenge request. *)
Inductive Call : Type :=
| Call_addBlock (data : Data)
| Call_submitStar (address message signature : string) (star : Star)
| Call_requestMessage (address : string).

Definition perform (c : Call) (w : World) : World :=
  match c with
  | Call_addBlock data => snd (_addBlock (new_Block data) w)
  | Call_submitStar address message signature star =>
      snd (submitStar address message signature star w)
  | Call_requestMessage address =>
      snd (requestMessageOwnershipVerification address w)
  end.

(** A sequence of calls, each run to completion before the next,
    whether it succeeds or fails. *)
Fixpoint run (calls : list Call) (w : World) : World :=
  match calls with
  | [] => w
  | c :: rest => run rest (perform c w)
  end.

(** *** What the validator is expected to report *)

(** Linkage errors of [blocks], which sit at positions [index],
    [index + 1], ... of the chain, [previous] being the block just
    before them (none before position 0). *)
Fixpoint linkage_errors (previous : option Block) (index : nat)
  (blocks : list Block) : list string :=
  match blocks with
  | [] => []
  | block :: rest =>
      match previous with
      | Some previousBlock =>
          if (0 <? height block)
             && negb (JS.strictEq (previousBlockHash block)
                        (hash previousBlock))
          then [linkage_message index block previousBlock]
          else []
      | None => []
      end ++ linkage_errors (Some block) (S index) rest
  end.

(** Content errors of [blocks], which sit at positions [index],
    [index + 1], ... of the chain. *)
Fixpoint invalid_errors (index : nat) (blocks : list Block)
  : list string :=
  match blocks with
  | [] => []
  | block :: rest =>
      (if Block_validate block then []
       else [invalid_message index block])
      ++ invalid_errors (S index) rest
  end.

(** The first block, if any, does not claim a positive height: the
    condition under which the linkage scan reads no missing block. *)
Definition head_grounded (blocks : list Block) : Prop :=
  match blocks with
  | [] => True
  | block :: _ => height block <= 0
  end.

(** The test of [submitStar] on the age of the message. *)
Definition elapsed_in_window (message : string) (w : World) : bool :=
  JS.lt
    (JS.sub (fst (Time_now w))
       (JS.parseInt_element
          (nth_error (JS.split ":" message) MESSAGE_TIME_INDEX)))
    (JS.Num 300).

(** Every block sits at the position that its height names. *)
Definition heights_contiguous (blocks : list Block) : Prop :=
  forall (i : nat) (block : Block),
    nth_error blocks i = Some block -> height block = Z.of_nat i.

(** The stored hash is the digest of the block serialized without it. *)
Definition hash_of_rest (block : Block) : Prop :=
  hash block = Some (SHA256 (JSON_stringify (with_hash None block))).

(** The stars that [address] owns in [blocks], in their order. *)
Inductive stars_of_owner (address : string)
  : list Block -> list (option Star) -> Prop :=
| stars_nil : stars_of_owner address [] []
| stars_owned block rest stars message signature star :
    Block_getBData block = Some (StarData address message signature star) ->
    stars_of_owner address rest stars ->
    stars_of_owner address (block :: rest) (Some star :: stars)
| stars_other block rest stars owner message signature star :
    Block_getBData block = Some (StarData owner message signature star) ->
    owner <> address ->
    stars_of_owner address rest stars ->
    stars_of_owner address (block :: rest) stars
| stars_no_owner block rest stars data :
    Block_getBData block = Some (GenesisData data) ->
    stars_of_owner address rest stars ->
    stars_of_owner address (block :: rest) stars
| stars_absent block rest stars :
    Block_getBData block = None ->
    stars_of_owner address rest stars ->
    stars_of_owner address (block :: rest) stars.

(** What holds of the world after the constructor and after every
    call. *)
Record invariant (w : World) : Prop := mkInvariant {
  inv_heights : heights_contiguous (chain w);
  inv_valid : validateChain (chain w) = Resolved [];
  inv_hashes : Forall hash_of_rest (chain w)
}.

End Blockchain.

(** ** Worlds to run the model on *)

Module Scenario.

#[local] Existing Instance Demo.collaborators.

(** The object that the constructor starts from, before
    [initializeChain]. *)
Definition blank : World :=
  {| chain := []; this_height := -1; ticks := 0; verify_calls := [] |}.

(** A fresh [Blockchain]: the genesis block alone, stamped at second
    1000.  The next reading of the clock gives second 1200. *)
Definition fresh : World := constructor 0 [].

Definition genesis : Block :=
  identify [] (JS.Num 1000) (new_Block (GenesisData "Genesis Block")).

(** The challenge that a request made at second 1200 returns. *)
Definition challenge : string := "addr1:1200:starRegistry".

(** After a request and the submission, at second 1400, of a star with
    the signed challenge; the block is stamped at second 1600. *)
Definition registered : World :=
  run [Call_requestMessage "addr1";
       Call_submitStar "addr1" challenge (Demo.sign "addr1" challenge)
         "star-1"]
    fresh.

Definition star_block : Block :=
  identify [genesis] (JS.Num 1600)
    (new_Block (StarData "addr1" challenge (Demo.sign "addr1" challenge)
                  "star-1")).

(** A block admitted straight after the genesis block. *)
Definition second_block : Block :=
  identify [genesis] (JS.Num 1200) (new_Block (GenesisData "second")).

(** A chain that was not built by the pipeline: its only block has no
    hash.  The next reading of the clock gives second 1400. *)
Definition forged : World :=
  {| chain := [new_Block (GenesisData "forged")]; this_height := 0;
     ticks := 2; verify_calls := [] |}.

(** Blocks that carry the digest of their own content. *)
Definition sealed (b : Block) : Block :=
  with_hash (Some (Demo.SHA256 (Demo.JSON_stringify b))) b.

(** At height 1, with a previous hash that is not the hash of
    [genesis]. *)
Definition unlinked_block : Block :=
  sealed (with_height 1
            (with_previousBlockHash (Some "elsewhere")
               (new_Block (GenesisData "unlinked")))).


(** At height 2, linked to [unlinked_block], without a hash. *)
Definition unsealed_block : Block :=
  with_height 2
    (with_previousBlockHash (hash unlinked_block)
       (new_Block (GenesisData "unsealed"))).

(** The world after the request of a challenge for [addr1] on
    [fresh]; the next reading of the clock gives second 1400. *)
Definition requested : World := perform (Call_requestMessage "addr1") fresh.

(** A chain whose only block claims height 5. *)
Definition lifted : World :=
  {| chain := [with_height 5 genesis]; this_height := -1; ticks := 2;
     verify_calls := [] |}.

(** The genesis block with another hash, and the star block with
    another previous hash. *)
Definition rehashed_genesis : Block := with_hash (Some "rewritten") genesis.

Definition relinked_star_block : Block :=
  with_previousBlockHash (Some "elsewhere") star_block.

(** Collaborators whose clock stands in the first second of the
    epoch. *)
Definition epoch : Collaborators :=
  Build_Collaborators (fun _ => 999) Demo.SHA256 Demo.JSON_stringify
    Demo.validate Demo.getBData Demo.verify.

(** Collaborators whose clock advances by 400 seconds from one reading
    to the next. *)
Definition slow : Collaborators :=
  Build_Collaborators (fun k => 1000000 + 400000 * Z.of_nat k) Demo.SHA256
    Demo.JSON_stringify Demo.validate Demo.getBData Demo.verify.

(** Collaborators whose [validate] refuses every block. *)
Definition refusing : Collaborators :=
  Build_Collaborators Demo.Date_getTime Demo.SHA256 Demo.JSON_stringify
    (fun _ => false) Demo.getBData Demo.verify.

End Scenario.

(** ** Decimal digits *)

(** The character that [String(n)] writes for the digit [n]. *)
Definition digit_char (n : N) : ascii := ascii_of_N (48 + n).

(** ** Properties *)

Section Properties.

Context {env : Collaborators}.

(** *** Array facts *)

Lemma index_app_last (pre : list Block) (block : Block) (rest : list Block) :
  JS.index (pre ++ block :: rest) (Z.of_nat (List.length pre)) = Some block.
Proof.
  unfold JS.index.
  destruct (Z.ltb_spec (Z.of_nat (List.length pre)) 0) as [Hneg | _];
    [lia | ].
  rewrite Nat2Z.id, nth_error_app2, Nat.sub_diag by lia.
  reflexivity.
Qed.

Lemma index_before (pre : list Block) (rest : list Block) :
  JS.index (pre ++ rest) (Z.of_nat (List.length pre) - 1)
  = nth_error pre (List.length pre - 1).
Proof.
  unfold JS.index.
  destruct pre as [ | p pre'].
  - reflexivity.
  - destruct (Z.ltb_spec (Z.of_nat (List.length (p :: pre')) - 1) 0)
      as [Hneg | _]; [simpl List.length in Hneg; lia | ].
    replace (Z.to_nat (Z.of_nat (List.length (p :: pre')) - 1))
      with (List.length (p :: pre') - 1)%nat by lia.
    apply nth_error_app1. simpl. lia.
Qed.

Lemma last_snoc (pre : list Block) (block : Block) :
  nth_error (pre ++ [block]) (List.length (pre ++ [block]) - 1)
  = Some block.
Proof.
  rewrite length_app. simpl List.length.
  replace (List.length pre + 1 - 1)%nat with (List.length pre) by lia.
  rewrite nth_error_app2, Nat.sub_diag by lia. reflexivity.
Qed.

(** *** The two scans of [validateChain] *)

Lemma forEach_linkage_spec (rest pre : list Block) (errorLog : list string) :
  (pre <> [] \/ head_grounded rest) ->
  forEach_linkage (pre ++ rest) rest (List.length pre) errorLog
  = Some (errorLog
          ++ linkage_errors (nth_error pre (List.length pre - 1))
               (List.length pre) rest)%list.
Proof.
  revert pre errorLog.
  induction rest as [ | block rest IH]; intros pre errorLog Hpre.
  - simpl. rewrite app_nil_r. reflexivity.
  - assert (Hnext : forall log,
      forEach_linkage (pre ++ block :: rest) rest (S (List.length pre)) log
      = Some (log ++ linkage_errors (Some block) (S (List.length pre)) rest)%list).
    { intro log.
      replace (pre ++ block :: rest)%list with ((pre ++ [block]) ++ rest)%list
        by (rewrite <- app_assoc; reflexivity).
      replace (S (List.length pre)) with (List.length (pre ++ [block]))
        by (rewrite length_app; simpl; lia).
      rewrite IH.
      - rewrite last_snoc. reflexivity.
      - left. destruct pre; discriminate. }
    simpl forEach_linkage. simpl linkage_errors.
    unfold check_linkage. rewrite index_before.
    destruct (Z.ltb_spec 0 (height block)) as [Hpos | Hle].
    + destruct (nth_error pre (List.length pre - 1)) as [previousBlock | ] eqn:E.
      * simpl andb.
        destruct (negb (JS.strictEq (previousBlockHash block)
                          (hash previousBlock))).
        -- rewrite Hnext. unfold JS.push. rewrite <- !app_assoc.
           reflexivity.
        -- rewrite Hnext. reflexivity.
      * destruct Hpre as [Hne | Hg].
        -- destruct pre as [ | p pre']; [congruence | ].
           apply nth_error_None in E. simpl in E. lia.
        -- simpl in Hg. lia.
    + rewrite Hnext.
      destruct (nth_error pre (List.length pre - 1)); reflexivity.
Qed.

Lemma forEach_validated_spec (rest pre : list Block)
  (errorLog : list string) :
  forEach_validated (pre ++ rest) (map Block_validate rest)
    (List.length pre) errorLog
  = Some (errorLog ++ invalid_errors (List.length pre) rest)%list.
Proof.
  revert pre errorLog.
  induction rest as [ | block rest IH]; intros pre errorLog.
  - simpl. rewrite app_nil_r. reflexivity.
  - assert (Hnext : forall log,
      forEach_validated (pre ++ block :: rest) (map Block_validate rest)
        (S (List.length pre)) log
      = Some (log ++ invalid_errors (S (List.length pre)) rest)%list).
    { intro log.
      replace (pre ++ block :: rest)%list with ((pre ++ [block]) ++ rest)%list
        by (rewrite <- app_assoc; reflexivity).
      replace (S (List.length pre)) with (List.length (pre ++ [block]))
        by (rewrite length_app; simpl; lia).
      apply IH. }
    simpl. rewrite index_app_last.
    destruct (Block_validate block); simpl negb; cbv iota.
    + apply Hnext.
    + rewrite Hnext. unfold JS.push. rewrite <- app_assoc. reflexivity.
Qed.

(** On a chain whose first block does not claim a positive height the
    validator resolves, with the linkage errors followed by the
    content errors. *)
Lemma validateChain_resolves (blocks : list Block) :
  head_grounded blocks ->
  validateChain blocks
  = Resolved (linkage_errors None 0 blocks ++ invalid_errors 0 blocks)%list.
Proof.
  intro Hg. unfold validateChain.
  pose proof (forEach_linkage_spec blocks [] [] (or_intror Hg)) as Hlink.
  simpl in Hlink. rewrite Hlink.
  pose proof (forEach_validated_spec blocks []
                (linkage_errors None 0 blocks)) as Hvalid.
  simpl in Hvalid. rewrite Hvalid.
  reflexivity.
Qed.

(** Otherwise the linkage scan reads the hash of a missing block. *)
Lemma validateChain_throws (block : Block) (rest : list Block) :
  0 < height block ->
  validateChain (block :: rest) = Rejected TypeError.
Proof.
  intro Hpos. unfold validateChain. simpl. unfold check_linkage.
  destruct (Z.ltb_spec 0 (height block)) as [_ | Hle]; [ | lia].
  reflexivity.
Qed.

Lemma validateChain_resolved_grounded (blocks : list Block)
  (errorLog : list string) :
  validateChain blocks = Resolved errorLog -> head_grounded blocks.
Proof.
  destruct blocks as [ | block rest]; intro H; simpl; [exact I | ].
  destruct (Z.ltb_spec 0 (height block)) as [Hpos | Hle]; [ | exact Hle].
  rewrite validateChain_throws in H by exact Hpos. discriminate.
Qed.

Lemma linkage_errors_complete (blocks : list Block) :
  forall (previous : option Block) (index i : nat)
         (block previousBlock : Block),
    nth_error blocks i = Some block ->
    match i with
    | O => previous
    | S j => nth_error blocks j
    end = Some previousBlock ->
    0 < height block ->
    previousBlockHash block <> hash previousBlock ->
    In (linkage_message (index + i) block previousBlock)
       (linkage_errors previous index blocks).
Proof.
  induction blocks as [ | b rest IH];
    intros previous index i block previousBlock Hi Hprev Hpos Hneq.
  - destruct i; discriminate.
  - simpl. apply in_or_app. destruct i as [ | j].
    + left. simpl in Hi. injection Hi as ->. rewrite Hprev.
      destruct (Z.ltb_spec 0 (height block)) as [_ | Hle]; [ | lia].
      replace (JS.strictEq (previousBlockHash block) (hash previousBlock))
        with false.
      * rewrite Nat.add_0_r. left. reflexivity.
      * symmetry. unfold JS.strictEq.
        destruct (previousBlockHash block) as [x | ],
                 (hash previousBlock) as [y | ]; try reflexivity.
        -- apply String.eqb_neq. congruence.
        -- congruence.
    + right. simpl in Hi.
      replace (index + S j)%nat with (S index + j)%nat by lia.
      apply IH; try assumption.
      destruct j as [ | k]; simpl in Hprev |- *; exact Hprev.
Qed.

Lemma invalid_errors_complete (blocks : list Block) :
  forall (index i : nat) (block : Block),
    nth_error blocks i = Some block ->
    Block_validate block = false ->
    In (invalid_message (index + i) block) (invalid_errors index blocks).
Proof.
  induction blocks as [ | b rest IH]; intros index i block Hi Hbad.
  - destruct i; discriminate.
  - simpl. apply in_or_app. destruct i as [ | j].
    + left. simpl in Hi. injection Hi as ->. rewrite Hbad.
      rewrite Nat.add_0_r. left. reflexivity.
    + right. simpl in Hi.
      replace (index + S j)%nat with (S index + j)%nat by lia.
      apply IH; assumption.
Qed.

(** *** The identity fields *)

Lemma identify_height (self_chain : list Block) (now : JS.Number)
  (block : Block) :
  height (identify self_chain now block)
  = Z.of_nat (List.length self_chain).
Proof.
  unfold identify.
  destruct (0 <? List.length self_chain)%nat;
    [destruct (JS.index self_chain _) | ]; reflexivity.
Qed.

Lemma identify_time (self_chain : list Block) (now : JS.Number)
  (block : Block) :
  time (identify self_chain now block) = now.
Proof.
  unfold identify.
  destruct (0 <? List.length self_chain)%nat;
    [destruct (JS.index self_chain _) | ]; reflexivity.
Qed.

Lemma identify_body (self_chain : list Block) (now : JS.Number)
  (block : Block) :
  body (identify self_chain now block) = body block.
Proof.
  unfold identify.
  destruct (0 <? List.length self_chain)%nat;
    [destruct (JS.index self_chain _) | ]; reflexivity.
Qed.

Lemma identify_previous_empty (now : JS.Number) (block : Block) :
  previousBlockHash (identify [] now block) = previousBlockHash block.
Proof. reflexivity. Qed.

Lemma identify_previous_last (self_chain : list Block) (now : JS.Number)
  (block previousBlock : Block) :
  nth_error self_chain (List.length self_chain - 1) = Some previousBlock ->
  previousBlockHash (identify self_chain now block) = hash previousBlock.
Proof.
  intro Hlast. unfold identify.
  pose proof (index_before self_chain []) as Hidx.
  rewrite app_nil_r in Hidx. rewrite Hidx, Hlast.
  destruct self_chain as [ | p rest]; [discriminate | ].
  reflexivity.
Qed.

Lemma identify_hash (self_chain : list Block) (now : JS.Number)
  (block : Block) :
  hash block = None ->
  hash_of_rest (identify self_chain now block).
Proof.
  intro Hnone. unfold hash_of_rest, identify.
  destruct block as [h ht bd tm prev]. simpl in Hnone. subst h.
  destruct (0 <? List.length self_chain)%nat;
    [destruct (JS.index self_chain _) | ]; reflexivity.
Qed.

(** *** One run of [_addBlock] *)

Lemma addBlock_outcome (block : Block) (w : World) :
  let b := identify (chain w) (fst (Time_now w)) block in
  let r := _addBlock block w in
  ticks (snd r) = S (ticks w)
  /\ verify_calls (snd r) = verify_calls w
  /\ this_height (snd r) = this_height w
  /\ match validateChain (JS.push (chain w) b) with
     | Resolved [] =>
         fst r = Resolved b /\ chain (snd r) = JS.push (chain w) b
     | Resolved (e :: errorLog) =>
         fst r = Rejected (ErrorLog (e :: errorLog))
         /\ chain (snd r) = chain w
     | Rejected _ | Pending =>
         fst r = Pending /\ chain (snd r) = JS.push (chain w) b
     end.
Proof.
  unfold _addBlock, bind, get_chain, set_chain, ret, Time_now. simpl.
  destruct (validateChain _) as [[ | e errorLog] | reason | ]; simpl;
    repeat split; try reflexivity.
  unfold JS.pop, JS.push. apply removelast_last.
Qed.

Lemma heights_contiguous_push (blocks : list Block) (block : Block) :
  heights_contiguous blocks ->
  height block = Z.of_nat (List.length blocks) ->
  heights_contiguous (JS.push blocks block).
Proof.
  intros Hc Hb i b Hi. unfold JS.push in Hi.
  destruct (Nat.lt_ge_cases i (List.length blocks)) as [Hlt | Hge].
  - rewrite nth_error_app1 in Hi by exact Hlt. apply Hc. exact Hi.
  - rewrite nth_error_app2 in Hi by exact Hge.
    destruct (i - List.length blocks)%nat as [ | k] eqn:E.
    + simpl in Hi. injection Hi as <-. rewrite Hb. f_equal. lia.
    + destruct k; discriminate.
Qed.

Lemma heights_contiguous_grounded (blocks : list Block) :
  heights_contiguous blocks -> head_grounded blocks.
Proof.
  intro Hc. destruct blocks as [ | block rest]; simpl; [exact I | ].
  rewrite (Hc 0%nat block eq_refl). simpl. lia.
Qed.

(** *** The invariant is kept by every call *)

Lemma addBlock_invariant (block : Block) (w : World) :
  hash block = None ->
  invariant w -> invariant (snd (_addBlock block w)).
Proof.
  intros Hnone [Hh Hv Hs].
  pose proof (addBlock_outcome block w) as Hout. cbv zeta in Hout.
  destruct Hout as (_ & _ & _ & Hcase).
  set (b := identify (chain w) (fst (Time_now w)) block) in *.
  assert (Hpushed : heights_contiguous (JS.push (chain w) b)).
  { apply heights_contiguous_push; [exact Hh | apply identify_height]. }
  pose proof (validateChain_resolves _
                (heights_contiguous_grounded _ Hpushed)) as Hres.
  rewrite Hres in Hcase.
  destruct (linkage_errors None 0 (JS.push (chain w) b)
            ++ invalid_errors 0 (JS.push (chain w) b))%list
    as [ | e errorLog] eqn:Elog.
  - destruct Hcase as [_ Hchain]. split; rewrite Hchain.
    + exact Hpushed.
    + exact Hres.
    + unfold JS.push. apply Forall_app. split; [exact Hs | ].
      constructor; [ | constructor].
      apply identify_hash. exact Hnone.
  - destruct Hcase as [_ Hchain]. split; rewrite Hchain; assumption.
Qed.

Lemma submitStar_chain (address message signature : string) (star : Star)
  (w : World) :
  let r := submitStar address message signature star w in
  chain (snd r) = chain w
  \/ snd r = snd (_addBlock
                    (new_Block (StarData address message signature star))
                    (snd (verify message address signature
                            (snd (Time_now w))))).
Proof.
  unfold submitStar, bind, ret. simpl.
  destruct (JS.lt _ _); [ | left; reflexivity].
  destruct (bitcoinMessage_verify message address signature)
    as [[ | ] | ]; [right | left | left]; reflexivity.
Qed.

Lemma invariant_chain (w w' : World) :
  chain w' = chain w -> invariant w -> invariant w'.
Proof. intros E [Hh Hv Hs]. split; rewrite E; assumption. Qed.

Lemma perform_invariant (c : Call) (w : World) :
  invariant w -> invariant (perform c w).
Proof.
  intro IH.
  destruct c as [data | address message signature star | address];
    simpl perform.
  - apply addBlock_invariant; [reflexivity | exact IH].
  - destruct (submitStar_chain address message signature star w)
      as [Hsame | Hadd].
    + exact (invariant_chain _ _ Hsame IH).
    + rewrite Hadd. apply addBlock_invariant; [reflexivity | ].
      revert IH. apply invariant_chain. reflexivity.
  - revert IH. apply invariant_chain. reflexivity.
Qed.

Lemma run_invariant (calls : list Call) :
  forall w : World, invariant w -> invariant (run calls w).
Proof.
  induction calls as [ | c rest IH]; intros w Hw; simpl.
  - exact Hw.
  - apply IH, perform_invariant, Hw.
Qed.

Lemma constructor_invariant (ticks0 : nat)
  (calls0 : list (string * string * string)) :
  invariant (constructor ticks0 calls0).
Proof.
  unfold constructor, initializeChain. simpl this_height. simpl Z.eqb.
  cbv iota.
  set (w0 := {| chain := []; this_height := -1; ticks := ticks0;
                verify_calls := calls0 |}).
  assert (H0 : invariant w0).
  { split; simpl.
    - intros i block Hi. destruct i; discriminate.
    - reflexivity.
    - constructor. }
  pose proof (addBlock_invariant
                (new_Block (GenesisData "Genesis Block")) w0 eq_refl H0)
    as H1.
  destruct (_addBlock (new_Block (GenesisData "Genesis Block")) w0)
    as [[blk | reason | ] w1]; exact H1.
Qed.

Lemma built_invariant (ticks0 : nat)
  (calls0 : list (string * string * string)) (calls : list Call) :
  invariant (run calls (constructor ticks0 calls0)).
Proof. apply run_invariant, constructor_invariant. Qed.

(** *** The admission pipeline *)

Lemma addBlock_resolved (block : Block) (w w' : World) (b : Block) :
  _addBlock block w = (Resolved b, w') ->
  b = identify (chain w) (fst (Time_now w)) block
  /\ chain w' = JS.push (chain w) b
  /\ validateChain (chain w') = Resolved [].
Proof.
  intro Hrun.
  pose proof (addBlock_outcome block w) as Hout. cbv zeta in Hout.
  rewrite Hrun in Hout. cbn [fst snd] in Hout.
  destruct Hout as (_ & _ & _ & Hcase).
  destruct (validateChain
              (JS.push (chain w)
                 (identify (chain w) (fst (Time_now w)) block)))
    as [[ | e errorLog] | reason | ] eqn:Ev.
  - destruct Hcase as [Hb Hchain]. injection Hb as ->.
    repeat split; [exact Hchain | ]. rewrite Hchain. exact Ev.
  - destruct Hcase as [Hb _]. discriminate.
  - destruct Hcase as [Hb _]. discriminate.
  - destruct Hcase as [Hb _]. discriminate.
Qed.

(** C1: every chain that the admission pipeline builds, the genesis
    block of the constructor followed by any sequence of [_addBlock]
    and [submitStar] calls, is one on which [validateChain] resolves
    with an empty error log. *)
Theorem pipeline_chain_validates (ticks0 : nat)
  (calls0 : list (string * string * string)) (calls : list Call) :
  validateChain (chain (run calls (constructor ticks0 calls0)))
  = Resolved [].
Proof. apply inv_valid, built_invariant. Qed.

(** C2: when the validation that [_addBlock] runs on the chain with
    the candidate appended resolves with a non-empty error log, the
    call is rejected with that log and the chain is what it was before
    the call; when the log is empty, the call resolves with the
    appended block, which is the last element of the chain. *)
Theorem addBlock_commits_or_rolls_back (block : Block) (w : World)
  (errorLog : list string) :
  validateChain
    (JS.push (chain w) (identify (chain w) (fst (Time_now w)) block))
  = Resolved errorLog ->
  match errorLog with
  | _ :: _ =>
      fst (_addBlock block w) = Rejected (ErrorLog errorLog)
      /\ chain (snd (_addBlock block w)) = chain w
  | [] =>
      fst (_addBlock block w)
      = Resolved (identify (chain w) (fst (Time_now w)) block)
      /\ chain (snd (_addBlock block w))
         = (chain w ++ [identify (chain w) (fst (Time_now w)) block])%list
      /\ nth_error (chain (snd (_addBlock block w)))
           (List.length (chain (snd (_addBlock block w))) - 1)
         = Some (identify (chain w) (fst (Time_now w)) block)
  end.
Proof.
  intro Hv.
  pose proof (addBlock_outcome block w) as Hout. cbv zeta in Hout.
  destruct Hout as (_ & _ & _ & Hcase). rewrite Hv in Hcase.
  destruct errorLog as [ | e errorLog].
  - destruct Hcase as [Hr Hc]. rewrite Hr, Hc.
    repeat split. apply last_snoc.
  - exact Hcase.
Qed.

(** C3: the hash stored in a block that [_addBlock] commits is the
    digest of the serialization of that block without its hash, for a
    candidate fresh from [new Block]; so it is for every block of a
    chain that the pipeline builds, and two such blocks, of the same
    chain or not, that agree on every other field agree on their hash. *)
Theorem committed_hash_digests_other_fields :
  (forall (data : Data) (w w' : World) (b : Block),
      _addBlock (new_Block data) w = (Resolved b, w') ->
      hash b = Some (SHA256 (JSON_stringify (with_hash None b))))
  /\ (forall (ticks0 : nat) (calls0 : list (string * string * string))
             (calls : list Call) (b : Block),
         In b (chain (run calls (constructor ticks0 calls0))) ->
         hash b = Some (SHA256 (JSON_stringify (with_hash None b))))
  /\ (forall (ticks1 ticks2 : nat)
             (calls1 calls2 : list (string * string * string))
             (run1 run2 : list Call) (b1 b2 : Block),
         In b1 (chain (run run1 (constructor ticks1 calls1))) ->
         In b2 (chain (run run2 (constructor ticks2 calls2))) ->
         with_hash None b1 = with_hash None b2 ->
         hash b1 = hash b2).
Proof.
  assert (Hall : forall ticks0 calls0 calls b,
             In b (chain (run calls (constructor ticks0 calls0))) ->
             hash_of_rest b).
  { intros ticks0 calls0 calls b Hin.
    pose proof (inv_hashes _ (built_invariant ticks0 calls0 calls)) as Hf.
    rewrite Forall_forall in Hf. apply Hf, Hin. }
  split; [ | split].
  - intros data w w' b Hrun.
    apply addBlock_resolved in Hrun. destruct Hrun as (-> & _ & _).
    apply identify_hash. reflexivity.
  - exact Hall.
  - intros ticks1 ticks2 calls1 calls2 run1 run2 b1 b2 H1 H2 Heq.
    rewrite (Hall _ _ _ _ H1), (Hall _ _ _ _ H2), Heq. reflexivity.
Qed.

(** C7: the block that [_addBlock] appends has for height the length
    of the chain before the call, for time the value of [Time.now()],
    and for previous hash the hash of the last block when the chain is
    not empty; on an empty chain the previous hash is left as the
    candidate has it, unset for a fresh block.  This is the block that
    a resolved call returns, at the end of the chain, and the block
    with which the chain was validated when the call is rejected.
    Hence in every chain that the pipeline builds the block at position
    [i] has height [i]. *)
Theorem addBlock_identity_fields :
  (forall (block : Block) (w w' : World) (b : Block),
      _addBlock block w = (Resolved b, w') ->
      height b = Z.of_nat (List.length (chain w))
      /\ time b = fst (Time_now w)
      /\ (forall previousBlock : Block,
             nth_error (chain w) (List.length (chain w) - 1)
             = Some previousBlock ->
             previousBlockHash b = hash previousBlock)
      /\ (chain w = [] -> previousBlockHash b = previousBlockHash block)
      /\ nth_error (chain w') (List.length (chain w)) = Some b)
  /\ (forall (block : Block) (w w' : World) (reason : Reason),
         _addBlock block w = (Rejected reason, w') ->
         exists (b : Block) (errorLog : list string),
           reason = ErrorLog errorLog
           /\ validateChain (chain w ++ [b]) = Resolved errorLog
           /\ height b = Z.of_nat (List.length (chain w))
           /\ time b = fst (Time_now w)
           /\ (forall previousBlock : Block,
                  nth_error (chain w) (List.length (chain w) - 1)
                  = Some previousBlock ->
                  previousBlockHash b = hash previousBlock)
           /\ (chain w = [] ->
               previousBlockHash b = previousBlockHash block))
  /\ (forall (data : Data) (w w' : World) (b : Block),
         _addBlock (new_Block data) w = (Resolved b, w') ->
         chain w = [] -> previousBlockHash b = None)
  /\ (forall (ticks0 : nat) (calls0 : list (string * string * string))
             (calls : list Call) (i : nat) (b : Block),
         nth_error (chain (run calls (constructor ticks0 calls0))) i
         = Some b ->
         height b = Z.of_nat i).
Proof.
  split; [ | split; [ | split]].
  - intros block w w' b Hrun.
    apply addBlock_resolved in Hrun. destruct Hrun as (Hb & Hchain & _).
    rewrite Hchain. subst b. repeat split.
    + apply identify_height.
    + apply identify_time.
    + intros previousBlock Hlast. apply identify_previous_last, Hlast.
    + intro Hempty. rewrite Hempty. apply identify_previous_empty.
    + unfold JS.push. rewrite nth_error_app2, Nat.sub_diag by lia.
      reflexivity.
  - intros block w w' reason Hrun.
    pose proof (addBlock_outcome block w) as Hout. cbv zeta in Hout.
    rewrite Hrun in Hout. cbn [fst snd] in Hout.
    destruct Hout as (_ & _ & _ & Hcase).
    exists (identify (chain w) (fst (Time_now w)) block).
    destruct (validateChain
                (JS.push (chain w)
                   (identify (chain w) (fst (Time_now w)) block)))
      as [[ | e errorLog] | thrown | ] eqn:Ev;
      destruct Hcase as [Hr _]; try discriminate.
    exists (e :: errorLog). injection Hr as ->.
    split; [reflexivity | ]. split; [exact Ev | ].
    split; [apply identify_height | ].
    split; [apply identify_time | ].
    split.
    + intros previousBlock Hlast. apply identify_previous_last, Hlast.
    + intro Hempty. rewrite Hempty. apply identify_previous_empty.
  - intros data w w' b Hrun Hempty.
    apply addBlock_resolved in Hrun. destruct Hrun as (Hb & _ & _).
    subst b. rewrite Hempty. reflexivity.
  - intros ticks0 calls0 calls i b Hi.
    exact (inv_heights _ (built_invariant ticks0 calls0 calls) i b Hi).
Qed.

(** *** The ownership gate *)

Lemma submitStar_gate (address message signature : string) (star : Star)
  (w : World) :
  submitStar address message signature star w
  = if elapsed_in_window message w then
      match bitcoinMessage_verify message address signature with
      | Returns true =>
          _addBlock (new_Block (StarData address message signature star))
            (snd (verify message address signature (snd (Time_now w))))
      | Returns false =>
          (Rejected SIGNATURE_INVALID,
           snd (verify message address signature (snd (Time_now w))))
      | Throws =>
          (Pending,
           snd (verify message address signature (snd (Time_now w))))
      end
    else (Rejected VALIDATION_TIME_EXCEEDED, snd (Time_now w)).
Proof.
  unfold submitStar, elapsed_in_window, bind, ret.
  change (5 * 60) with 300.
  destruct (Time_now w) as [now w1]. cbn [fst snd].
  destruct (JS.lt _ _); [ | reflexivity].
  unfold verify. cbn [fst snd].
  destruct (bitcoinMessage_verify message address signature) as [[ | ] | ];
    reflexivity.
Qed.

(** C4: when the time embedded in the message is 300 seconds or more
    behind [Time.now()], [submitStar] is rejected for having exceeded
    the validation time, [bitcoinMessage.verify] is not called and the
    chain is unchanged, whatever the signature. *)
Theorem submitStar_expired (address message signature : string)
  (star : Star) (w : World) (currentTime messageTime : Z) :
  fst (Time_now w) = JS.Num currentTime ->
  JS.parseInt_element (nth_error (JS.split ":" message) MESSAGE_TIME_INDEX)
  = JS.Num messageTime ->
  currentTime - messageTime >= 300 ->
  fst (submitStar address message signature star w)
  = Rejected VALIDATION_TIME_EXCEEDED
  /\ verify_calls (snd (submitStar address message signature star w))
     = verify_calls w
  /\ chain (snd (submitStar address message signature star w)) = chain w.
Proof.
  intros Hnow Hmsg Hold.
  rewrite submitStar_gate. unfold elapsed_in_window.
  rewrite Hnow, Hmsg. simpl JS.sub. unfold JS.lt.
  destruct (Z.ltb_spec (currentTime - messageTime) 300) as [Hlt | _];
    [lia | ].
  repeat split; reflexivity.
Qed.

(** C5: when the message is less than 300 seconds old and
    [bitcoinMessage.verify] returns [false], [submitStar] is rejected
    for an invalid signature and the chain is unchanged; when
    [bitcoinMessage.verify] throws instead, as it does on a signature
    that it cannot decode, [submitStar] is not rejected for an invalid
    signature: its promise is never settled, the check having been
    made and the chain being unchanged. *)
Theorem submitStar_signature_outcomes (address message signature : string)
  (star : Star) (w : World) (currentTime messageTime : Z) :
  fst (Time_now w) = JS.Num currentTime ->
  JS.parseInt_element (nth_error (JS.split ":" message) MESSAGE_TIME_INDEX)
  = JS.Num messageTime ->
  currentTime - messageTime < 300 ->
  (bitcoinMessage_verify message address signature = Returns false ->
   fst (submitStar address message signature star w)
   = Rejected SIGNATURE_INVALID
   /\ chain (snd (submitStar address message signature star w)) = chain w)
  /\ (bitcoinMessage_verify message address signature = Throws ->
      fst (submitStar address message signature star w) = Pending
      /\ fst (submitStar address message signature star w)
         <> Rejected SIGNATURE_INVALID
      /\ verify_calls (snd (submitStar address message signature star w))
         = (message, address, signature) :: verify_calls w
      /\ chain (snd (submitStar address message signature star w))
         = chain w).
Proof.
  intros Hnow Hmsg Hfresh.
  rewrite submitStar_gate. unfold elapsed_in_window.
  rewrite Hnow, Hmsg. simpl JS.sub. unfold JS.lt.
  destruct (Z.ltb_spec (currentTime - messageTime) 300) as [_ | Hge];
    [ | lia].
  split; intros ->.
  - split; reflexivity.
  - split; [reflexivity | ]. split; [discriminate | ].
    split; reflexivity.
Qed.

Lemma split_no_separator (sep : ascii) (s : string) :
  (forall c : ascii, In c (list_ascii_of_string s) -> c <> sep) ->
  JS.split sep s = [s].
Proof.
  induction s as [ | c rest IH]; intro Hno; simpl.
  - reflexivity.
  - destruct (Ascii.eqb_spec c sep) as [Heq | _].
    + exfalso. apply (Hno c); [left; reflexivity | exact Heq].
    + rewrite IH; [reflexivity | ].
      intros c' Hin. apply Hno. right. exact Hin.
Qed.

(** C10: when the second colon-delimited field of the message does
    not parse to an integer, the elapsed time is [NaN], the comparison
    with 300 is false and [submitStar] is rejected for having exceeded
    the validation time, not for an invalid signature, with no call to
    [bitcoinMessage.verify] and no change to the chain.  A message
    without a colon is such a message. *)
Theorem submitStar_unparseable_time :
  (forall (address message signature : string) (star : Star) (w : World),
      JS.parseInt_element
        (nth_error (JS.split ":" message) MESSAGE_TIME_INDEX) = JS.NaN ->
      JS.lt (JS.sub (fst (Time_now w))
               (JS.parseInt_element
                  (nth_error (JS.split ":" message) MESSAGE_TIME_INDEX)))
        (JS.Num (5 * 60)) = false
      /\ fst (submitStar address message signature star w)
         = Rejected VALIDATION_TIME_EXCEEDED
      /\ fst (submitStar address message signature star w)
         <> Rejected SIGNATURE_INVALID
      /\ verify_calls (snd (submitStar address message signature star w))
         = verify_calls w
      /\ chain (snd (submitStar address message signature star w))
         = chain w)
  /\ (forall message : string,
         (forall c : ascii,
             In c (list_ascii_of_string message) -> c <> ":"%char) ->
         JS.parseInt_element
           (nth_error (JS.split ":" message) MESSAGE_TIME_INDEX) = JS.NaN).
Proof.
  split.
  - intros address message signature star w Hnan.
    assert (Hcmp : forall x, JS.lt (JS.sub x JS.NaN) (JS.Num (5 * 60)) = false).
    { intros [ | x]; reflexivity. }
    rewrite submitStar_gate. unfold elapsed_in_window.
    rewrite Hnan. change 300 with (5 * 60). rewrite Hcmp.
    repeat split; try reflexivity. discriminate.
  - intros message Hno.
    rewrite (split_no_separator ":" message Hno). reflexivity.
Qed.

(** *** The queries *)

Lemma strictEq_true (a b : option string) :
  JS.strictEq a b = true <-> a = b.
Proof.
  destruct a as [x | ], b as [y | ]; simpl.
  - rewrite String.eqb_eq. split; congruence.
  - split; discriminate.
  - split; discriminate.
  - split; reflexivity.
Qed.

Lemma filter_none {A : Type} (f : A -> bool) (l : list A) :
  (forall x, In x l -> f x = false) -> filter f l = [].
Proof.
  induction l as [ | a l IH]; intro Hnone; simpl.
  - reflexivity.
  - rewrite (Hnone a) by (left; reflexivity).
    apply IH. intros x Hx. apply Hnone. right. exact Hx.
Qed.

(** C8: [getBlockByHash] is rejected when no block has the hash, and
    resolves with the first block in chain order that has it;
    [getBlockByHeight] resolves with [null] when no block has the
    height, and in no case is it rejected. *)
Theorem lookups_fail_asymmetrically (w : World) :
  (forall h : option string,
      (forall b : Block, In b (chain w) -> hash b <> h) ->
      getBlockByHash h w = (Rejected NO_BLOCK_WITH_HASH, w))
  /\ (forall (h : option string) (before after : list Block) (b : Block),
         chain w = (before ++ b :: after)%list ->
         hash b = h ->
         (forall p : Block, In p before -> hash p <> h) ->
         getBlockByHash h w = (Resolved b, w))
  /\ (forall ht : Z,
         (forall b : Block, In b (chain w) -> height b <> ht) ->
         getBlockByHeight ht w = (Resolved None, w))
  /\ (forall ht : Z,
         exists found : option Block,
           getBlockByHeight ht w = (Resolved found, w)).
Proof.
  split; [ | split; [ | split]].
  - intros h Hnone. unfold getBlockByHash, bind, get_chain, ret.
    rewrite filter_none; [reflexivity | ].
    intros b Hb. apply not_true_is_false. rewrite strictEq_true.
    apply Hnone, Hb.
  - intros h before after b Hchain Hb Hbefore.
    unfold getBlockByHash, bind, get_chain, ret.
    rewrite Hchain, filter_app, filter_none.
    + simpl. replace (JS.strictEq (hash b) h) with true; [reflexivity | ].
      symmetry. apply strictEq_true, Hb.
    + intros p Hp. apply not_true_is_false. rewrite strictEq_true.
      apply Hbefore, Hp.
  - intros ht Hnone. unfold getBlockByHeight, bind, get_chain, ret.
    rewrite filter_none; [reflexivity | ].
    intros b Hb. apply Z.eqb_neq, Hnone, Hb.
  - intro ht. unfold getBlockByHeight, bind, get_chain, ret.
    destruct (nth_error _ 0) as [block | ]; eexists; reflexivity.
Qed.

Lemma stars_of_owner_filter (address : string) (blocks : list Block) :
  stars_of_owner address blocks
    (map star_of (filter (owned_by address) (map Block_getBData blocks))).
Proof.
  induction blocks as [ | block rest IH]; simpl.
  - constructor.
  - destruct (Block_getBData block)
      as [[data | owner message signature star] | ] eqn:E; simpl.
    + eapply stars_no_owner; eassumption.
    + destruct (String.eqb_spec owner address) as [-> | Hneq]; simpl.
      * eapply stars_owned; eassumption.
      * eapply stars_other; eassumption.
    + apply stars_absent; assumption.
Qed.

Lemma stars_of_owner_unique (address : string) (blocks : list Block)
  (stars stars' : list (option Star)) :
  stars_of_owner address blocks stars ->
  stars_of_owner address blocks stars' ->
  stars = stars'.
Proof.
  intro H. revert stars'.
  induction H as [ | block rest stars message signature star Hd _ IH
                   | block rest stars owner message signature star Hd Hne _ IH
                   | block rest stars data Hd _ IH
                   | block rest stars Hd _ IH];
    intros stars' H'; inversion H'; subst; try congruence.
  - f_equal; [congruence | apply IH; assumption].
  - apply IH; assumption.
  - apply IH; assumption.
  - apply IH; assumption.
Qed.

(** C9: [getStarsByWalletAddress] resolves with the stars of the
    blocks whose decoded payload has the address as owner, one per
    such block and in chain order, passing over the blocks that decode
    to nothing or to a payload without owner, and with no other list;
    in a chain built by the pipeline, chain order is ascending
    height. *)
Theorem stars_by_owner_in_order :
  (forall (address : string) (w : World),
      exists stars : list (option Star),
        getStarsByWalletAddress address w = (Resolved stars, w)
        /\ stars_of_owner address (chain w) stars
        /\ (forall stars' : list (option Star),
               stars_of_owner address (chain w) stars' -> stars' = stars))
  /\ (forall (ticks0 : nat) (calls0 : list (string * string * string))
             (calls : list Call) (i j : nat) (bi bj : Block),
         nth_error (chain (run calls (constructor ticks0 calls0))) i
         = Some bi ->
         nth_error (chain (run calls (constructor ticks0 calls0))) j
         = Some bj ->
         (i < j)%nat ->
         height bi < height bj).
Proof.
  split.
  - intros address w. eexists. split; [reflexivity | ]. split.
    + apply stars_of_owner_filter.
    + intros stars' H'. symmetry.
      exact (stars_of_owner_unique _ _ _ _
               (stars_of_owner_filter address (chain w)) H').
  - intros ticks0 calls0 calls i j bi bj Hi Hj Hlt.
    pose proof (inv_heights _ (built_invariant ticks0 calls0 calls)) as Hc.
    rewrite (Hc i bi Hi), (Hc j bj Hj). lia.
Qed.

(** *** The validator *)


(** *** Decimal text: [String(n)], [slice] and [parseInt] *)

Lemma append_assoc (a b c : string) : (a ++ b) ++ c = a ++ (b ++ c).
Proof. induction a as [ | x a IH]; simpl; [reflexivity | rewrite IH; reflexivity]. Qed.

Lemma length_append (a b : string) :
  String.length (a ++ b) = (String.length a + String.length b)%nat.
Proof. induction a as [ | x a IH]; simpl; [reflexivity | rewrite IH; reflexivity]. Qed.

Lemma substring_prefix (a b : string) :
  substring 0 (String.length a) (a ++ b) = a.
Proof.
  induction a as [ | x a IH]; simpl.
  - destruct b; reflexivity.
  - rewrite IH. reflexivity.
Qed.

Lemma string_of_revapp (a b : Decimal.uint) :
  NilEmpty.string_of_uint (Decimal.revapp a b)
  = NilEmpty.string_of_uint (Decimal.rev a) ++ NilEmpty.string_of_uint b.
Proof.
  revert b. unfold Decimal.rev.
  induction a; intro b; simpl Decimal.revapp;
    try reflexivity;
    rewrite IHa; rewrite (IHa (_ Decimal.Nil)); simpl;
    rewrite append_assoc; reflexivity.
Qed.

Lemma string_of_rev_tl (l : Decimal.uint) :
  l <> Decimal.Nil ->
  NilEmpty.string_of_uint (Decimal.rev l)
  = NilEmpty.string_of_uint (Decimal.rev (DecimalPos.Unsigned.tl l))
    ++ String (digit_char (DecimalPos.Unsigned.hd l)) "".
Proof.
  intro Hl. destruct l; [congruence | ..];
    unfold Decimal.rev at 1; simpl Decimal.revapp; rewrite string_of_revapp; reflexivity.
Qed.

Lemma parseDigits_uint (d : Decimal.uint) (a : Z) :
  JS.parseDigits 10 (NilEmpty.string_of_uint d) (Some a)
  = Some (a * 10 ^ Z.of_N (DecimalPos.Unsigned.usize d)
          + Z.of_N (DecimalPos.Unsigned.of_lu (Decimal.rev d))).
Proof.
  revert a.
  induction d as [ | d IHd | d IHd | d IHd | d IHd | d IHd | d IHd | d IHd
                   | d IHd | d IHd | d IHd ]; intro a;
    [simpl; f_equal; lia | ..];
    cbn [NilEmpty.string_of_uint JS.parseDigits];
    match goal with
    | |- context [JS.digitValue ?c] =>
        let v := eval vm_compute in (JS.digitValue c) in
        change (JS.digitValue c) with v
    end;
    cbv iota beta;
    match goal with
    | |- context [?x <? 10] => change (x <? 10) with true
    end;
    cbv iota; rewrite IHd; f_equal;
    match goal with
    | |- context [Decimal.rev (?D d)] =>
        change (Decimal.rev (D d)) with (Decimal.revapp d (D Decimal.Nil));
        rewrite (DecimalPos.Unsigned.of_lu_revapp d (D Decimal.Nil))
    end;
    cbn [DecimalPos.Unsigned.usize DecimalPos.Unsigned.of_lu];
    rewrite N2Z.inj_succ, Z.pow_succ_r by lia;
    rewrite N2Z.inj_add, N2Z.inj_mul, N2Z.inj_pow;
    simpl Z.of_N; ring.
Qed.

Lemma parseDigits_uint_start (d : Decimal.uint) :
  d <> Decimal.Nil ->
  JS.parseDigits 10 (NilEmpty.string_of_uint d) None
  = Some (Z.of_N (DecimalPos.Unsigned.of_lu (Decimal.rev d))).
Proof.
  intro Hd.
  destruct d as [ | d | d | d | d | d | d | d | d | d | d ];
    [congruence | ..];
    cbn [NilEmpty.string_of_uint JS.parseDigits];
    match goal with
    | |- context [JS.digitValue ?c] =>
        let v := eval vm_compute in (JS.digitValue c) in
        change (JS.digitValue c) with v
    end;
    cbv iota beta;
    match goal with
    | |- context [?x <? 10] => change (x <? 10) with true
    end;
    cbv iota; rewrite parseDigits_uint; f_equal;
    match goal with
    | |- context [Decimal.rev (?D d)] =>
        change (Decimal.rev (D d)) with (Decimal.revapp d (D Decimal.Nil));
        rewrite (DecimalPos.Unsigned.of_lu_revapp d (D Decimal.Nil))
    end;
    cbn [DecimalPos.Unsigned.of_lu];
    rewrite N2Z.inj_add, N2Z.inj_mul, N2Z.inj_pow;
    simpl Z.of_N; ring.
Qed.

(** [parseInt] on a non-empty string of decimal digits. *)
Lemma parseInt_uint (d : Decimal.uint) :
  d <> Decimal.Nil ->
  JS.parseInt (NilEmpty.string_of_uint d)
  = JS.Num (Z.of_N (DecimalPos.Unsigned.of_lu (Decimal.rev d))).
Proof.
  intro Hd.
  assert (Hgen : JS.parseInt (NilEmpty.string_of_uint d)
                 = match JS.parseDigits 10 (NilEmpty.string_of_uint d) None with
                   | Some n => JS.Num (1 * n)
                   | None => JS.NaN
                   end).
  { destruct d as [ | d | d | d | d | d | d | d | d | d | d ];
      [congruence | | reflexivity ..].
    destruct d; reflexivity. }
  rewrite Hgen, (parseDigits_uint_start d Hd). f_equal; lia.
Qed.

Lemma of_lu_to_little_uint (p : positive) :
  DecimalPos.Unsigned.of_lu (Pos.to_little_uint p) = Npos p.
Proof.
  rewrite <- (DecimalPos.Unsigned.of_to p), DecimalPos.Unsigned.of_uint_alt.
  unfold Pos.to_uint. rewrite DecimalFacts.rev_rev. reflexivity.
Qed.

Lemma string_of_uint_nonnil (d : Decimal.uint) :
  d <> Decimal.Nil -> NilZero.string_of_uint d = NilEmpty.string_of_uint d.
Proof. destruct d; [congruence | reflexivity ..]. Qed.

Lemma parseInt_negative (d : Decimal.uint) :
  d <> Decimal.Nil ->
  JS.parseInt (String "-" (NilEmpty.string_of_uint d))
  = JS.Num (- Z.of_N (DecimalPos.Unsigned.of_lu (Decimal.rev d))).
Proof.
  intro Hd.
  assert (Hgen : JS.parseInt (String "-" (NilEmpty.string_of_uint d))
             = match JS.parseDigits 10 (NilEmpty.string_of_uint d) None with
               | Some n => JS.Num (-1 * n)
               | None => JS.NaN
               end).
  { destruct d as [ | d | d | d | d | d | d | d | d | d | d ];
      [congruence | | reflexivity ..].
    destruct d; reflexivity. }
  rewrite Hgen, (parseDigits_uint_start d Hd). f_equal; lia.
Qed.

Lemma parseInt_Z_toString (n : Z) : JS.parseInt (JS.Z_toString n) = JS.Num n.
Proof.
  destruct n as [ | p | p].
  - reflexivity.
  - unfold JS.Z_toString. simpl Z.to_int.
    unfold NilZero.string_of_int.
    rewrite string_of_uint_nonnil by apply DecimalPos.Unsigned.to_uint_nonnil.
    rewrite parseInt_uint by apply DecimalPos.Unsigned.to_uint_nonnil.
    unfold Pos.to_uint. rewrite DecimalFacts.rev_rev, of_lu_to_little_uint. reflexivity.
  - unfold JS.Z_toString. simpl Z.to_int.
    unfold NilZero.string_of_int.
    rewrite string_of_uint_nonnil by apply DecimalPos.Unsigned.to_uint_nonnil.
    rewrite parseInt_negative by apply DecimalPos.Unsigned.to_uint_nonnil.
    unfold Pos.to_uint. rewrite DecimalFacts.rev_rev, of_lu_to_little_uint. reflexivity.
Qed.

Lemma of_lu_tl (l : Decimal.uint) :
  DecimalPos.Unsigned.of_lu (DecimalPos.Unsigned.tl l) = (DecimalPos.Unsigned.of_lu l / 10)%N.
Proof.
  rewrite (DecimalPos.Unsigned.of_lu_eqn l).
  assert (Hhd : (DecimalPos.Unsigned.hd l < 10)%N) by (destruct l; reflexivity).
  apply (N.div_unique _ 10 _ (DecimalPos.Unsigned.hd l)); [exact Hhd | lia].
Qed.

Lemma of_lu_tl3 (l : Decimal.uint) :
  DecimalPos.Unsigned.of_lu (DecimalPos.Unsigned.tl (DecimalPos.Unsigned.tl (DecimalPos.Unsigned.tl l)))
  = (DecimalPos.Unsigned.of_lu l / 1000)%N.
Proof.
  rewrite !of_lu_tl, !N.Div0.div_div. reflexivity.
Qed.

Lemma tl_nonnil (l : Decimal.uint) : DecimalPos.Unsigned.tl l <> Decimal.Nil -> l <> Decimal.Nil.
Proof. destruct l; simpl; congruence. Qed.

Lemma slice_three (s : string) (a b c : ascii) :
  JS.slice_0_minus3 (s ++ String a (String b (String c ""))) = s.
Proof.
  unfold JS.slice_0_minus3. rewrite length_append. simpl String.length.
  replace (String.length s + 3 - 3)%nat with (String.length s) by lia.
  apply substring_prefix.
Qed.

Lemma slice_Z_toString (p : positive) :
  (1000 <= Npos p)%N ->
  JS.slice_0_minus3 (JS.Z_toString (Zpos p))
  = NilEmpty.string_of_uint
      (Decimal.rev (DecimalPos.Unsigned.tl (DecimalPos.Unsigned.tl (DecimalPos.Unsigned.tl (Pos.to_little_uint p)))))
  /\ DecimalPos.Unsigned.tl (DecimalPos.Unsigned.tl (DecimalPos.Unsigned.tl (Pos.to_little_uint p))) <> Decimal.Nil.
Proof.
  intro Hbig.
  set (l := Pos.to_little_uint p).
  assert (H3 : DecimalPos.Unsigned.tl (DecimalPos.Unsigned.tl (DecimalPos.Unsigned.tl l)) <> Decimal.Nil).
  { intro E.
    pose proof (of_lu_tl3 l) as Hv. rewrite E in Hv. simpl in Hv.
    unfold l in Hv. rewrite of_lu_to_little_uint in Hv.
    assert (Npos p / 1000 >= 1)%N.
    { apply N.le_ge. apply N.div_le_lower_bound; lia. }
    lia. }
  pose proof (tl_nonnil _ H3) as H2.
  pose proof (tl_nonnil _ H2) as H1.
  split; [ | exact H3].
  unfold JS.Z_toString. simpl Z.to_int. unfold NilZero.string_of_int.
  rewrite string_of_uint_nonnil by apply DecimalPos.Unsigned.to_uint_nonnil.
  unfold Pos.to_uint. fold l.
  rewrite (string_of_rev_tl l) by exact (tl_nonnil _ H1).
  rewrite (string_of_rev_tl (DecimalPos.Unsigned.tl l)) by exact H1.
  rewrite (string_of_rev_tl (DecimalPos.Unsigned.tl (DecimalPos.Unsigned.tl l))) by exact H2.
  rewrite !append_assoc. simpl append.
  apply slice_three.
Qed.

Lemma Time_now_seconds (w : World) :
  1000 <= Date_getTime (ticks w) ->
  fst (Time_now w) = JS.Num (Date_getTime (ticks w) / 1000).
Proof.
  unfold Time_now. simpl fst. intro Hbig.
  destruct (Date_getTime (ticks w)) as [ | p | p] eqn:E; try lia.
  destruct (slice_Z_toString p) as [Hslice Hnn]; [lia | ].
  rewrite Hslice.
  rewrite parseInt_uint
    by (intro Hrev; apply Hnn, DecimalFacts.rev_nil_inv, Hrev).
  rewrite DecimalFacts.rev_rev, of_lu_tl3, of_lu_to_little_uint.
  rewrite N2Z.inj_div. reflexivity.
Qed.

(** X1: [Time.now()] is the clock reading in whole seconds from the
    first full second on; in the first second after the epoch, where
    the reading has no more than three digits to slice off, it is
    [NaN]. *)
Theorem Time_now_whole_seconds (w : World) :
  (1000 <= Date_getTime (ticks w) ->
   fst (Time_now w) = JS.Num (Date_getTime (ticks w) / 1000))
  /\ (0 <= Date_getTime (ticks w) < 1000 -> fst (Time_now w) = JS.NaN).
Proof.
  split; [apply Time_now_seconds | ].
  unfold Time_now. simpl fst.
  intro Hsmall.
  assert (Hall :
    forallb (fun k => match JS.parseInt
                               (JS.slice_0_minus3
                                  (JS.Z_toString (Z.of_nat k))) with
                      | JS.NaN => true
                      | JS.Num _ => false
                      end) (seq 0 1000) = true)
    by (vm_compute; reflexivity).
  rewrite forallb_forall in Hall.
  specialize (Hall (Z.to_nat (Date_getTime (ticks w)))).
  rewrite Z2Nat.id in Hall by lia.
  destruct (JS.parseInt _); [reflexivity | ].
  assert (false = true); [ | discriminate].
  apply Hall. apply in_seq. lia.
Qed.

(** *** More on the two scans *)

Lemma linkage_errors_sound (blocks : list Block) :
  forall (previous : option Block) (index : nat) (message : string),
    In message (linkage_errors previous index blocks) ->
    exists (i : nat) (block previousBlock : Block),
      nth_error blocks i = Some block
      /\ match i with
         | O => previous
         | S j => nth_error blocks j
         end = Some previousBlock
      /\ 0 < height block
      /\ previousBlockHash block <> hash previousBlock
      /\ message = linkage_message (index + i) block previousBlock.
Proof.
  induction blocks as [ | b rest IH]; intros previous index message Hin.
  - destruct Hin.
  - simpl in Hin. apply in_app_or in Hin. destruct Hin as [Hhere | Hrest].
    + destruct previous as [p | ]; [ | destruct Hhere].
      destruct (Z.ltb_spec 0 (height b)) as [Hpos | Hle];
        [ | destruct Hhere].
      destruct (JS.strictEq (previousBlockHash b) (hash p)) eqn:E;
        simpl in Hhere; [destruct Hhere | ].
      destruct Hhere as [<- | []].
      exists 0%nat, b, p. repeat split; try assumption.
      * intro Heq. apply strictEq_true in Heq. congruence.
      * rewrite Nat.add_0_r. reflexivity.
    + destruct (IH _ _ _ Hrest) as (i & block & p & Hi & Hp & Hpos & Hne & ->).
      exists (S i), block, p. repeat split; try assumption.
      * destruct i; exact Hp.
      * f_equal. lia.
Qed.

Lemma invalid_errors_sound (blocks : list Block) :
  forall (index : nat) (message : string),
    In message (invalid_errors index blocks) ->
    exists (i : nat) (block : Block),
      nth_error blocks i = Some block
      /\ Block_validate block = false
      /\ message = invalid_message (index + i) block.
Proof.
  induction blocks as [ | b rest IH]; intros index message Hin.
  - destruct Hin.
  - simpl in Hin. apply in_app_or in Hin. destruct Hin as [Hhere | Hrest].
    + destruct (Block_validate b) eqn:E; [destruct Hhere | ].
      destruct Hhere as [<- | []].
      exists 0%nat, b. repeat split; try assumption.
      rewrite Nat.add_0_r. reflexivity.
    + destruct (IH _ _ Hrest) as (i & block & Hi & Hbad & ->).
      exists (S i), block. repeat split; try assumption.
      f_equal. lia.
Qed.

Lemma linkage_errors_app (front back : list Block) :
  forall (previous : option Block) (index : nat),
    linkage_errors previous index (front ++ back)
    = (linkage_errors previous index front
       ++ linkage_errors
            (match front with
             | [] => previous
             | _ :: _ => nth_error front (List.length front - 1)
             end)
            (index + List.length front) back)%list.
Proof.
  induction front as [ | b rest IH]; intros previous index.
  - simpl. rewrite Nat.add_0_r. reflexivity.
  - simpl linkage_errors. rewrite IH. rewrite <- app_assoc.
    f_equal. f_equal. simpl List.length.
    replace (index + S (List.length rest))%nat
      with (S index + List.length rest)%nat by lia.
    f_equal. destruct rest as [ | r rest']; [reflexivity | ].
    simpl. rewrite Nat.sub_0_r. reflexivity.
Qed.

Lemma invalid_errors_app (front back : list Block) :
  forall index : nat,
    invalid_errors index (front ++ back)
    = (invalid_errors index front
       ++ invalid_errors (index + List.length front) back)%list.
Proof.
  induction front as [ | b rest IH]; intro index.
  - simpl. rewrite Nat.add_0_r. reflexivity.
  - simpl. rewrite IH, <- app_assoc.
    replace (index + S (List.length rest))%nat
      with (S index + List.length rest)%nat by lia.
    reflexivity.
Qed.

(** X2: every message of the error log that [validateChain] resolves
    with is owed to a fault of the chain: it is the linkage message of
    a position [i > 0] whose block has a positive height and a previous
    hash other than the hash of the block before it, or the content
    message of a position whose block fails [validate]. *)
Theorem validateChain_reports_only_faults (blocks : list Block)
  (errorLog : list string) (message : string) :
  validateChain blocks = Resolved errorLog ->
  In message errorLog ->
  (exists (i : nat) (block previousBlock : Block),
      (0 < i)%nat
      /\ nth_error blocks i = Some block
      /\ nth_error blocks (i - 1) = Some previousBlock
      /\ 0 < height block
      /\ previousBlockHash block <> hash previousBlock
      /\ message = linkage_message i block previousBlock)
  \/ (exists (i : nat) (block : Block),
         nth_error blocks i = Some block
         /\ Block_validate block = false
         /\ message = invalid_message i block).
Proof.
  intros Hres Hin.
  pose proof (validateChain_resolved_grounded _ _ Hres) as Hg.
  rewrite (validateChain_resolves _ Hg) in Hres. injection Hres as <-.
  apply in_app_or in Hin. destruct Hin as [Hl | Hc].
  - left. destruct (linkage_errors_sound _ _ _ _ Hl)
      as (i & block & p & Hi & Hp & Hpos & Hne & ->).
    destruct i as [ | j]; [discriminate | ].
    exists (S j), block, p. repeat split; try assumption; try lia.
    simpl. rewrite Nat.sub_0_r. exact Hp.
  - right. destruct (invalid_errors_sound _ _ _ Hc)
      as (i & block & Hi & Hbad & ->).
    exists i, block. repeat split; assumption.
Qed.

Lemma clean_chain_blocks (blocks : list Block) :
  validateChain blocks = Resolved [] ->
  forall (i : nat) (block : Block),
    nth_error blocks i = Some block ->
    Block_validate block = true
    /\ (0 < height block ->
        (0 < i)%nat
        /\ forall previousBlock : Block,
             nth_error blocks (i - 1) = Some previousBlock ->
             previousBlockHash block = hash previousBlock).
Proof.
  intros Hres i block Hi.
  pose proof (validateChain_resolved_grounded _ _ Hres) as Hg.
  rewrite (validateChain_resolves _ Hg) in Hres.
  injection Hres as Hlog. apply app_eq_nil in Hlog.
  destruct Hlog as [Hlink Hcontent].
  split.
  - destruct (Block_validate block) eqn:E; [reflexivity | ].
    pose proof (invalid_errors_complete blocks 0 i block Hi E) as Hin.
    rewrite Hcontent in Hin. destruct Hin.
  - intro Hpos.
    assert (Hi0 : (0 < i)%nat).
    { destruct i; [ | lia]. destruct blocks; [discriminate | ].
      simpl in Hi. injection Hi as ->. simpl in Hg. lia. }
    split; [exact Hi0 | ].
    intros p Hp.
    destruct (JS.strictEq (previousBlockHash block) (hash p)) eqn:E.
    + apply strictEq_true, E.
    + exfalso.
      destruct i as [ | j]; [lia | ].
      replace (S j - 1)%nat with j in Hp by lia.
      assert (Hne : previousBlockHash block <> hash p).
      { intro Heq. apply strictEq_true in Heq. congruence. }
      pose proof (linkage_errors_complete blocks None 0 (S j) block p
                    Hi Hp Hpos Hne) as Hin.
      rewrite Hlink in Hin. destruct Hin.
Qed.

(** X3: [validateChain] resolves with an empty log exactly when every
    block passes [validate] and every block with a positive height sits
    after the first position and carries the hash of the block before
    it as its previous hash. *)
Theorem validateChain_clean_iff (blocks : list Block) :
  validateChain blocks = Resolved []
  <-> (forall (i : nat) (block : Block),
          nth_error blocks i = Some block ->
          Block_validate block = true
          /\ (0 < height block ->
              (0 < i)%nat
              /\ forall previousBlock : Block,
                   nth_error blocks (i - 1) = Some previousBlock ->
                   previousBlockHash block = hash previousBlock)).
Proof.
  split; [apply clean_chain_blocks | ].
  intro Hall.
  assert (Hg : head_grounded blocks).
  { destruct blocks as [ | b rest]; simpl; [exact I | ].
    destruct (Z.ltb_spec 0 (height b)) as [Hpos | Hle]; [ | exact Hle].
    destruct (Hall 0%nat b eq_refl) as [_ H0].
    destruct (H0 Hpos) as [Hlt _]. lia. }
  rewrite (validateChain_resolves _ Hg).
  destruct (linkage_errors None 0 blocks ++ invalid_errors 0 blocks)%list
    as [ | message rest] eqn:Elog; [reflexivity | ].
  exfalso.
  assert (Hin : In message
                  (linkage_errors None 0 blocks ++ invalid_errors 0 blocks))
    by (rewrite Elog; left; reflexivity).
  apply in_app_or in Hin. destruct Hin as [Hl | Hc].
  - destruct (linkage_errors_sound _ _ _ _ Hl)
      as (i & block & p & Hi & Hp & Hpos & Hne & _).
    destruct (Hall i block Hi) as [_ Hlink].
    destruct (Hlink Hpos) as [_ Hprev]. apply Hne, Hprev.
    destruct i as [ | j]; [discriminate | ].
    simpl. rewrite Nat.sub_0_r. exact Hp.
  - destruct (invalid_errors_sound _ _ _ Hc) as (i & block & Hi & Hbad & _).
    destruct (Hall i block Hi) as [Hok _]. congruence.
Qed.

(** X4: [validateChain] is rejected with a [TypeError] exactly when the
    first block of the chain has a positive height (the linkage check
    then reads the hash of a block that does not exist); it resolves
    exactly when the chain is empty or its first block has no positive
    height; it is always settled. *)
Theorem validateChain_outcomes (blocks : list Block) :
  (validateChain blocks = Rejected TypeError
   <-> exists (first : Block) (rest : list Block),
         blocks = first :: rest /\ 0 < height first)
  /\ ((exists errorLog : list string, validateChain blocks = Resolved errorLog)
      <-> match blocks with
          | [] => True
          | first :: _ => height first <= 0
          end)
  /\ validateChain blocks <> Pending.
Proof.
  destruct blocks as [ | first rest].
  - split; [ | split].
    + split; [discriminate | intros (f & r & E & _); discriminate].
    + split; [trivial | intros _; eexists; reflexivity].
    + discriminate.
  - destruct (Z.ltb_spec 0 (height first)) as [Hpos | Hle].
    + rewrite (validateChain_throws first rest Hpos).
      split; [ | split].
      * split; [intros _; exists first, rest; auto | reflexivity].
      * split; [intros [l Hl]; discriminate | lia].
      * discriminate.
    + rewrite (validateChain_resolves (first :: rest) Hle).
      split; [ | split].
      * split; [discriminate | ].
        intros (f & r & E & Hf). injection E as <- <-. lia.
      * split; [intros _; exact Hle | intros _; eexists; reflexivity].
      * discriminate.
Qed.

(** *** The outcome of [_addBlock], by the state of the chain *)

Lemma pushed_grounded (self_chain : list Block) (now : JS.Number)
  (block : Block) :
  head_grounded self_chain ->
  head_grounded (JS.push self_chain (identify self_chain now block)).
Proof.
  intro Hg. destruct self_chain as [ | first rest].
  - change (height (identify [] now block) <= 0).
    rewrite identify_height. simpl. lia.
  - exact Hg.
Qed.

Lemma pushed_errors (self_chain : list Block) (now : JS.Number)
  (block : Block) :
  head_grounded self_chain ->
  validateChain (JS.push self_chain (identify self_chain now block))
  = Resolved
      ((linkage_errors None 0 self_chain ++ invalid_errors 0 self_chain)
       ++ (if Block_validate (identify self_chain now block) then []
           else [invalid_message (List.length self_chain)
                   (identify self_chain now block)]))%list.
Proof.
  intro Hg.
  rewrite (validateChain_resolves _ (pushed_grounded _ now block Hg)).
  unfold JS.push. rewrite linkage_errors_app, invalid_errors_app.
  f_equal. simpl invalid_errors. rewrite app_nil_r.
  assert (Hnew :
    linkage_errors
      match self_chain with
      | [] => None
      | _ :: _ => nth_error self_chain (List.length self_chain - 1)
      end (0 + List.length self_chain)
      [identify self_chain now block] = []).
  { destruct self_chain as [ | first rest]; [reflexivity | ].
    destruct (nth_error (first :: rest) (List.length (first :: rest) - 1))
      as [previousBlock | ] eqn:Elast; [ | reflexivity].
    cbn [linkage_errors].
    rewrite (identify_previous_last _ now block previousBlock Elast).
    replace (JS.strictEq (hash previousBlock) (hash previousBlock))
      with true by (symmetry; apply strictEq_true; reflexivity).
    rewrite andb_false_r. reflexivity. }
  rewrite Hnew, app_nil_r, <- app_assoc. reflexivity.
Qed.

Lemma addBlock_clean_cases (block : Block) (w : World) :
  validateChain (chain w) = Resolved [] ->
  (Block_validate (identify (chain w) (fst (Time_now w)) block) = true ->
   fst (_addBlock block w)
   = Resolved (identify (chain w) (fst (Time_now w)) block)
   /\ chain (snd (_addBlock block w))
      = (chain w ++ [identify (chain w) (fst (Time_now w)) block])%list)
  /\ (Block_validate (identify (chain w) (fst (Time_now w)) block) = false ->
      fst (_addBlock block w)
      = Rejected
          (ErrorLog
             [invalid_message (List.length (chain w))
                (identify (chain w) (fst (Time_now w)) block)])
      /\ chain (snd (_addBlock block w)) = chain w).
Proof.
  intro Hclean.
  pose proof (validateChain_resolved_grounded _ _ Hclean) as Hg.
  pose proof (pushed_errors (chain w) (fst (Time_now w)) block Hg) as Hpushed.
  rewrite (validateChain_resolves _ Hg) in Hclean.
  injection Hclean as Hnil. rewrite Hnil in Hpushed. cbn [app] in Hpushed.
  pose proof (addBlock_outcome block w) as Hout. cbv zeta in Hout.
  destruct Hout as (_ & _ & _ & Hcase). rewrite Hpushed in Hcase.
  split; intro Hv; rewrite Hv in Hcase; exact Hcase.
Qed.

(** X5: on a chain that validates, the outcome of [_addBlock] is
    decided by [validate] on the new block alone, whose link to the
    last block is right by construction: accepted, the call resolves
    with the block and the chain grows by it; refused, the call is
    rejected with the one content message of the new position and the
    chain is unchanged. *)
Theorem addBlock_on_valid_chain (block : Block) (w : World) :
  validateChain (chain w) = Resolved [] ->
  (Block_validate (identify (chain w) (fst (Time_now w)) block) = true ->
   fst (_addBlock block w)
   = Resolved (identify (chain w) (fst (Time_now w)) block)
   /\ chain (snd (_addBlock block w))
      = (chain w ++ [identify (chain w) (fst (Time_now w)) block])%list)
  /\ (Block_validate (identify (chain w) (fst (Time_now w)) block) = false ->
      fst (_addBlock block w)
      = Rejected
          (ErrorLog
             [invalid_message (List.length (chain w))
                (identify (chain w) (fst (Time_now w)) block)])
      /\ chain (snd (_addBlock block w)) = chain w).
Proof. apply addBlock_clean_cases. Qed.

Lemma addBlock_faulty (block : Block) (w : World)
  (fault : string) (faults : list string) :
  validateChain (chain w) = Resolved (fault :: faults) ->
  (exists more : list string,
      fst (_addBlock block w)
      = Rejected (ErrorLog ((fault :: faults) ++ more)))
  /\ chain (snd (_addBlock block w)) = chain w.
Proof.
  intro Hfaulty.
  pose proof (validateChain_resolved_grounded _ _ Hfaulty) as Hg.
  pose proof (pushed_errors (chain w) (fst (Time_now w)) block Hg) as Hpushed.
  rewrite (validateChain_resolves _ Hg) in Hfaulty.
  injection Hfaulty as Hlog. rewrite Hlog in Hpushed.
  pose proof (addBlock_outcome block w) as Hout. cbv zeta in Hout.
  destruct Hout as (_ & _ & _ & Hcase). rewrite Hpushed in Hcase.
  cbn [app] in Hcase. destruct Hcase as [Hr Hc].
  split; [ | exact Hc].
  eexists. rewrite Hr. reflexivity.
Qed.

Lemma perform_faulty (c : Call) (w : World)
  (fault : string) (faults : list string) :
  validateChain (chain w) = Resolved (fault :: faults) ->
  chain (perform c w) = chain w.
Proof.
  intro Hfaulty.
  destruct c as [data | address message signature star | address];
    simpl perform.
  - apply (addBlock_faulty _ _ _ _ Hfaulty).
  - destruct (submitStar_chain address message signature star w)
      as [Hsame | Hadd]; [exact Hsame | ].
    rewrite Hadd.
    exact (proj2 (addBlock_faulty
                    (new_Block (StarData address message signature star))
                    (snd (verify message address signature
                            (snd (Time_now w))))
                    fault faults Hfaulty)).
  - reflexivity.
Qed.

(** X6: on a chain for which [validateChain] resolves with a non-empty
    log, every [_addBlock] is rejected, with a log that starts with
    that one, and the chain is unchanged; no sequence of calls changes
    the chain any more. *)
Theorem faulty_chain_admits_nothing (w : World)
  (fault : string) (faults : list string) :
  validateChain (chain w) = Resolved (fault :: faults) ->
  (forall block : Block,
      (exists more : list string,
          fst (_addBlock block w)
          = Rejected (ErrorLog ((fault :: faults) ++ more)))
      /\ chain (snd (_addBlock block w)) = chain w)
  /\ (forall calls : list Call, chain (run calls w) = chain w).
Proof.
  intro Hfaulty. split.
  - intro block. apply addBlock_faulty, Hfaulty.
  - intro calls. revert w Hfaulty.
    induction calls as [ | c rest IH]; intros w Hfaulty; simpl run.
    + reflexivity.
    + pose proof (perform_faulty c w _ _ Hfaulty) as Hstep.
      rewrite IH; [exact Hstep | ]. rewrite Hstep. exact Hfaulty.
Qed.

(** X7: on a chain whose first block has a positive height,
    [validateChain] is rejected with a [TypeError], which [_addBlock]
    does not catch: its promise is never settled and the block it
    pushed stays in the chain. *)
Theorem addBlock_on_ungrounded_chain (block : Block) (w : World)
  (first : Block) (rest : list Block) :
  chain w = first :: rest ->
  0 < height first ->
  validateChain (chain w) = Rejected TypeError
  /\ fst (_addBlock block w) = Pending
  /\ chain (snd (_addBlock block w))
     = (chain w ++ [identify (chain w) (fst (Time_now w)) block])%list.
Proof.
  intros Hchain Hpos.
  pose proof (addBlock_outcome block w) as Hout. cbv zeta in Hout.
  destruct Hout as (_ & _ & _ & Hcase).
  assert (Hthrow : forall (l : list Block) (b : Block),
             l = first :: rest ->
             validateChain (JS.push l b) = Rejected TypeError).
  { intros l b ->. apply validateChain_throws, Hpos. }
  rewrite (Hthrow _ _ Hchain) in Hcase.
  split; [rewrite Hchain; apply validateChain_throws, Hpos | exact Hcase].
Qed.

(** *** Append only *)

Lemma addBlock_chain_cases (block : Block) (w : World) :
  chain (snd (_addBlock block w)) = chain w
  \/ chain (snd (_addBlock block w))
     = (chain w ++ [identify (chain w) (fst (Time_now w)) block])%list.
Proof.
  pose proof (addBlock_outcome block w) as Hout. cbv zeta in Hout.
  destruct Hout as (_ & _ & _ & Hcase).
  destruct (validateChain _) as [[ | e l] | r | ];
    destruct Hcase as [_ Hc]; auto.
Qed.

Lemma perform_chain_cases (c : Call) (w : World) :
  chain (perform c w) = chain w
  \/ exists b : Block, chain (perform c w) = (chain w ++ [b])%list.
Proof.
  destruct c as [data | address message signature star | address];
    simpl perform.
  - destruct (addBlock_chain_cases (new_Block data) w) as [H | H];
      [left | right; eexists]; exact H.
  - destruct (submitStar_chain address message signature star w)
      as [Hsame | Hadd]; [left; exact Hsame | ].
    rewrite Hadd.
    destruct (addBlock_chain_cases
                (new_Block (StarData address message signature star))
                (snd (verify message address signature (snd (Time_now w)))))
      as [H | H]; [left | right; eexists]; exact H.
  - left. reflexivity.
Qed.

(** X8: the chain is append-only: whatever the world and the calls,
    the chain after them is the chain before them followed by at most
    one block per call. *)
Theorem chain_is_append_only (calls : list Call) :
  forall w : World,
    exists appended : list Block,
      chain (run calls w) = (chain w ++ appended)%list
      /\ (List.length appended <= List.length calls)%nat.
Proof.
  induction calls as [ | c rest IH]; intro w; simpl run.
  - exists []. rewrite app_nil_r. split; [reflexivity | simpl; lia].
  - destruct (IH (perform c w)) as (appended & Hrun & Hlen).
    destruct (perform_chain_cases c w) as [Hsame | [b Hadd]].
    + exists appended. rewrite Hrun, Hsame. split; [reflexivity | simpl; lia].
    + exists (b :: appended). rewrite Hrun, Hadd, <- app_assoc.
      split; [reflexivity | simpl; lia].
Qed.

(** *** this.height *)

Lemma perform_this_height (c : Call) (w : World) :
  this_height (perform c w) = this_height w.
Proof.
  destruct c as [data | address message signature star | address];
    simpl perform.
  - apply (addBlock_outcome (new_Block data) w).
  - rewrite submitStar_gate.
    destruct (elapsed_in_window message w); [ | reflexivity].
    destruct (bitcoinMessage_verify message address signature)
      as [[ | ] | ]; [ | reflexivity | reflexivity].
    pose proof (addBlock_outcome
                  (new_Block (StarData address message signature star))
                  (snd (verify message address signature
                          (snd (Time_now w))))) as Hout.
    cbv zeta in Hout. destruct Hout as (_ & _ & Hh & _).
    rewrite Hh. reflexivity.
  - reflexivity.
Qed.

(** X9: [this.height] is set to -1 by the constructor and never
    written again: after any sequence of calls it is still -1, whatever
    the length of the chain. *)
Theorem this_height_is_never_updated (ticks0 : nat)
  (calls0 : list (string * string * string)) (calls : list Call) :
  this_height (run calls (constructor ticks0 calls0)) = -1.
Proof.
  assert (Hrun : forall cs w, this_height (run cs w) = this_height w).
  { induction cs as [ | c rest IH]; intro w; simpl; [reflexivity | ].
    rewrite IH. apply perform_this_height. }
  rewrite Hrun. unfold constructor, initializeChain. simpl this_height.
  change (-1 =? -1) with true. cbv iota.
  pose proof (addBlock_outcome (new_Block (GenesisData "Genesis Block"))
                {| chain := []; this_height := -1; ticks := ticks0;
                   verify_calls := calls0 |}) as Hout.
  cbv zeta in Hout. destruct Hout as (_ & _ & Hh & _).
  destruct (_addBlock _ _) as [[b | r | ] w1]; exact Hh.
Qed.

(** *** The links of a chain that the pipeline builds *)

Lemma addBlock_first_unlinked (block : Block) (w : World) :
  previousBlockHash block = None ->
  (forall first : Block,
      nth_error (chain w) 0 = Some first -> previousBlockHash first = None) ->
  forall first : Block,
    nth_error (chain (snd (_addBlock block w))) 0 = Some first ->
    previousBlockHash first = None.
Proof.
  intros Hnone Hw first.
  destruct (addBlock_chain_cases block w) as [-> | ->]; [apply Hw | ].
  destruct (chain w) as [ | head rest] eqn:E.
  - simpl. intro Hf. injection Hf as <-.
    rewrite identify_previous_empty. exact Hnone.
  - simpl. intro Hf. apply Hw. exact Hf.
Qed.

Lemma perform_first_unlinked (c : Call) (w : World) :
  (forall first : Block,
      nth_error (chain w) 0 = Some first -> previousBlockHash first = None) ->
  forall first : Block,
    nth_error (chain (perform c w)) 0 = Some first ->
    previousBlockHash first = None.
Proof.
  intro Hw.
  destruct c as [data | address message signature star | address];
    simpl perform.
  - apply addBlock_first_unlinked; [reflexivity | exact Hw].
  - destruct (submitStar_chain address message signature star w)
      as [Hsame | Hadd].
    + rewrite Hsame. exact Hw.
    + rewrite Hadd. apply addBlock_first_unlinked; [reflexivity | exact Hw].
  - exact Hw.
Qed.

Lemma built_first_unlinked (ticks0 : nat)
  (calls0 : list (string * string * string)) (calls : list Call)
  (first : Block) :
  nth_error (chain (run calls (constructor ticks0 calls0))) 0 = Some first ->
  previousBlockHash first = None.
Proof.
  assert (Hrun : forall cs w,
             (forall f, nth_error (chain w) 0 = Some f ->
                        previousBlockHash f = None) ->
             forall f, nth_error (chain (run cs w)) 0 = Some f ->
                       previousBlockHash f = None).
  { induction cs as [ | c rest IH]; intros w Hw; simpl run; [exact Hw | ].
    apply IH, perform_first_unlinked, Hw. }
  apply Hrun. unfold constructor, initializeChain. simpl this_height.
  change (-1 =? -1) with true. cbv iota.
  pose proof (addBlock_first_unlinked
                (new_Block (GenesisData "Genesis Block"))
                {| chain := []; this_height := -1; ticks := ticks0;
                   verify_calls := calls0 |} eq_refl) as Hgen.
  destruct (_addBlock _ _) as [[b | r | ] w1]; apply Hgen;
    intros f Hf; discriminate.
Qed.

Lemma built_link (ticks0 : nat)
  (calls0 : list (string * string * string)) (calls : list Call)
  (j : nat) (block : Block) :
  nth_error (chain (run calls (constructor ticks0 calls0))) (S j)
  = Some block ->
  exists previousBlock : Block,
    nth_error (chain (run calls (constructor ticks0 calls0))) j
    = Some previousBlock
    /\ previousBlockHash block = hash previousBlock.
Proof.
  intro Hi.
  pose proof (built_invariant ticks0 calls0 calls) as [Hheights Hvalid _].
  destruct (clean_chain_blocks _ Hvalid (S j) block Hi) as [_ Hlink].
  destruct (nth_error (chain (run calls (constructor ticks0 calls0))) j)
    as [p | ] eqn:Ej.
  - exists p. split; [reflexivity | ].
    destruct Hlink as [_ Hprev].
    + rewrite (Hheights _ _ Hi). lia.
    + apply Hprev. simpl. rewrite Nat.sub_0_r. exact Ej.
  - exfalso. apply nth_error_None in Ej.
    assert (Hsome :
      nth_error (chain (run calls (constructor ticks0 calls0))) (S j)
      <> None) by congruence.
    apply nth_error_Some in Hsome. lia.
Qed.

(** X10: in a chain that the pipeline builds every block passes
    [validate], the first block has no previous hash and every other
    block carries the hash of the block before it. *)
Theorem built_chain_is_linked (ticks0 : nat)
  (calls0 : list (string * string * string)) (calls : list Call)
  (i : nat) (block : Block) :
  nth_error (chain (run calls (constructor ticks0 calls0))) i = Some block ->
  Block_validate block = true
  /\ match i with
     | O => previousBlockHash block = None
     | S j =>
         exists previousBlock : Block,
           nth_error (chain (run calls (constructor ticks0 calls0))) j
           = Some previousBlock
           /\ previousBlockHash block = hash previousBlock
     end.
Proof.
  intro Hi.
  pose proof (built_invariant ticks0 calls0 calls) as [_ Hvalid _].
  split; [exact (proj1 (clean_chain_blocks _ Hvalid i block Hi)) | ].
  destruct i as [ | j].
  - exact (built_first_unlinked _ _ _ _ Hi).
  - exact (built_link _ _ _ _ _ Hi).
Qed.

(** *** Lookups *)

Lemma filter_height (blocks : list Block) :
  forall (offset : nat) (h : Z),
    (forall (j : nat) (b : Block),
        nth_error blocks j = Some b -> height b = Z.of_nat (offset + j)) ->
    filter (fun p => height p =? h) blocks
    = if (Z.of_nat offset <=? h) then
        match nth_error blocks (Z.to_nat (h - Z.of_nat offset)) with
        | Some b => [b]
        | None => []
        end
      else [].
Proof.
  induction blocks as [ | b rest IH]; intros offset h Hc.
  - simpl. destruct (Z.of_nat offset <=? h); [ | reflexivity].
    destruct (Z.to_nat _); reflexivity.
  - simpl filter.
    pose proof (Hc 0%nat b eq_refl) as Hb. rewrite Nat.add_0_r in Hb.
    rewrite (IH (S offset) h).
    + destruct (Z.eqb_spec (height b) h) as [Heq | Hne].
      * subst h. rewrite Hb.
        destruct (Z.leb_spec (Z.of_nat offset) (Z.of_nat offset)); [ | lia].
        destruct (Z.leb_spec (Z.of_nat (S offset)) (Z.of_nat offset)); [lia | ].
        rewrite Z.sub_diag. reflexivity.
      * destruct (Z.leb_spec (Z.of_nat (S offset)) h) as [Hle | Hgt].
        -- destruct (Z.leb_spec (Z.of_nat offset) h); [ | lia].
           replace (Z.to_nat (h - Z.of_nat offset))
             with (S (Z.to_nat (h - Z.of_nat (S offset)))) by lia.
           reflexivity.
        -- destruct (Z.leb_spec (Z.of_nat offset) h) as [Hle | _];
             [ | reflexivity].
           exfalso. apply Hne. lia.
    + intros j b' Hj. rewrite (Hc (S j) b' Hj). f_equal. lia.
Qed.

(** X11: on a chain that the pipeline builds, [getBlockByHeight]
    resolves with the block at position [h] of the chain when [h] is
    from 0 to the length of the chain excluded, and with [null] for
    any other [h]; the world is unchanged. *)
Theorem getBlockByHeight_built (ticks0 : nat)
  (calls0 : list (string * string * string)) (calls : list Call) (h : Z) :
  getBlockByHeight h (run calls (constructor ticks0 calls0))
  = (Resolved
       (if 0 <=? h
        then nth_error (chain (run calls (constructor ticks0 calls0)))
               (Z.to_nat h)
        else None),
     run calls (constructor ticks0 calls0)).
Proof.
  pose proof (built_invariant ticks0 calls0 calls) as [Hheights _ _].
  unfold getBlockByHeight, bind, get_chain, ret.
  rewrite (filter_height _ 0 h) by exact Hheights.
  change (Z.of_nat 0) with 0. rewrite Z.sub_0_r.
  destruct (0 <=? h); [ | reflexivity].
  destruct (nth_error _ (Z.to_nat h)); reflexivity.
Qed.

Lemma filter_head {A : Type} (f : A -> bool) (l : list A) (x : A)
  (rest : list A) :
  filter f l = x :: rest -> In x l /\ f x = true.
Proof.
  intro Hf.
  assert (Hin : In x (filter f l)) by (rewrite Hf; left; reflexivity).
  apply filter_In in Hin. exact Hin.
Qed.

(** X12: [getBlockByHash] resolves only with a block of the chain that
    has the hash, is rejected only when no block has it, with the
    message that no such block exists, is always settled, leaves the
    world unchanged, and finds a block for the hash of every block of
    the chain. *)
Theorem getBlockByHash_inversion (h : option string) (w : World) :
  (forall (b : Block) (w' : World),
      getBlockByHash h w = (Resolved b, w') ->
      w' = w /\ In b (chain w) /\ hash b = h)
  /\ (forall (reason : Reason) (w' : World),
         getBlockByHash h w = (Rejected reason, w') ->
         w' = w /\ reason = NO_BLOCK_WITH_HASH
         /\ forall b : Block, In b (chain w) -> hash b <> h)
  /\ fst (getBlockByHash h w) <> Pending
  /\ (forall b : Block,
         In b (chain w) -> hash b = h ->
         exists found : Block,
           getBlockByHash h w = (Resolved found, w) /\ hash found = h).
Proof.
  unfold getBlockByHash, bind, get_chain, ret.
  destruct (filter (fun block => JS.strictEq (hash block) h) (chain w))
    as [ | x rest] eqn:E.
  - assert (Hnone : forall b, In b (chain w) -> hash b <> h).
    { intros b Hb Heq.
      assert (Hin : In b (filter (fun block => JS.strictEq (hash block) h)
                            (chain w))).
      { apply filter_In. split; [exact Hb | apply strictEq_true, Heq]. }
      rewrite E in Hin. destruct Hin. }
    split; [ | split; [ | split]].
    + intros b w' H. discriminate.
    + intros reason w' H. injection H as <- <-. auto.
    + discriminate.
    + intros b Hb Heq. destruct (Hnone b Hb Heq).
  - destruct (filter_head _ _ _ _ E) as [Hin Hx].
    apply strictEq_true in Hx.
    split; [ | split; [ | split]].
    + intros b w' H. injection H as <- <-. auto.
    + intros reason w' H. discriminate.
    + discriminate.
    + intros b _ _. exists x. auto.
Qed.

(** *** The constructor *)

(** X13: a new [Blockchain] holds one block, the genesis block
    stamped with height 0, the first reading of the clock and no
    previous hash, when [validate] accepts it, and no block otherwise;
    the clock has been read once and no signature checked. *)
Theorem constructor_makes_genesis (ticks0 : nat)
  (calls0 : list (string * string * string)) :
  chain (constructor ticks0 calls0)
  = (if Block_validate
          (identify []
             (fst (Time_now {| chain := []; this_height := -1;
                               ticks := ticks0; verify_calls := calls0 |}))
             (new_Block (GenesisData "Genesis Block")))
     then [identify []
             (fst (Time_now {| chain := []; this_height := -1;
                               ticks := ticks0; verify_calls := calls0 |}))
             (new_Block (GenesisData "Genesis Block"))]
     else [])
  /\ ticks (constructor ticks0 calls0) = S ticks0
  /\ verify_calls (constructor ticks0 calls0) = calls0.
Proof.
  unfold constructor, initializeChain. simpl this_height.
  change (-1 =? -1) with true. cbv iota.
  set (w0 := {| chain := []; this_height := -1; ticks := ticks0;
                verify_calls := calls0 |}).
  pose proof (addBlock_outcome (new_Block (GenesisData "Genesis Block")) w0)
    as Hout.
  cbv zeta in Hout. destruct Hout as (Ht & Hv & _ & Hcase).
  rewrite (pushed_errors (chain w0) (fst (Time_now w0))
             (new_Block (GenesisData "Genesis Block")) I) in Hcase.
  change (chain w0) with (@nil Block) in *. cbn [app linkage_errors invalid_errors] in Hcase.
  assert (Hchain :
    chain (snd (_addBlock (new_Block (GenesisData "Genesis Block")) w0))
    = if Block_validate
           (identify [] (fst (Time_now w0))
              (new_Block (GenesisData "Genesis Block")))
      then [identify [] (fst (Time_now w0))
              (new_Block (GenesisData "Genesis Block"))]
      else []).
  { destruct (Block_validate _) eqn:E; apply Hcase. }
  destruct (_addBlock (new_Block (GenesisData "Genesis Block")) w0)
    as [[b | r | ] w1]; simpl in *; auto.
Qed.

(** *** Tampering *)

(** X14: in a chain that the pipeline built, replacing a block after
    the first by one of the same height with another previous hash, or
    a block that has a successor by one of the same height with
    another hash, makes [validateChain] resolve with a log that holds
    the linkage message of the broken link. *)
Theorem tampering_breaks_a_link (ticks0 : nat)
  (calls0 : list (string * string * string)) (calls : list Call)
  (before after : list Block) (block block' : Block) :
  chain (run calls (constructor ticks0 calls0))
  = (before ++ block :: after)%list ->
  height block' = height block ->
  (before <> [] ->
   previousBlockHash block' <> previousBlockHash block ->
   exists (errorLog : list string) (previousBlock : Block),
     validateChain (before ++ block' :: after) = Resolved errorLog
     /\ nth_error before (List.length before - 1) = Some previousBlock
     /\ In (linkage_message (List.length before) block' previousBlock)
          errorLog)
  /\ (forall (next : Block) (later : list Block),
         after = next :: later ->
         hash block' <> hash block ->
         exists errorLog : list string,
           validateChain (before ++ block' :: after) = Resolved errorLog
           /\ In (linkage_message (S (List.length before)) next block')
                errorLog).
Proof.
  intros Hchain Hheight.
  pose proof (built_invariant ticks0 calls0 calls) as [Hheights _ _].
  rewrite Hchain in Hheights.
  assert (Hblock : height block = Z.of_nat (List.length before)).
  { apply Hheights. rewrite nth_error_app2, Nat.sub_diag by lia. reflexivity. }
  assert (Hg : head_grounded (before ++ block' :: after)).
  { destruct before as [ | first rest]; simpl.
    - rewrite Hheight, Hblock. simpl. lia.
    - rewrite (Hheights 0%nat first eq_refl). simpl. lia. }
  pose proof (validateChain_resolves _ Hg) as Hres.
  assert (Hat : nth_error (before ++ block' :: after) (List.length before)
                = Some block').
  { rewrite nth_error_app2, Nat.sub_diag by lia. reflexivity. }
  split.
  - intros Hne Hprev.
    destruct (List.length before) as [ | j] eqn:Elen;
      [destruct before; [congruence | discriminate] | ].
    assert (Horig : nth_error (chain (run calls (constructor ticks0 calls0)))
                      (S j) = Some block).
    { rewrite Hchain, nth_error_app2, Elen, Nat.sub_diag by lia.
      reflexivity. }
    destruct (built_link _ _ _ _ _ Horig) as (p & Hp & Hlinked).
    rewrite Hchain, nth_error_app1 in Hp by lia.
    eexists. exists p. split; [exact Hres | ]. split.
    + simpl. rewrite Nat.sub_0_r. exact Hp.
    + apply in_or_app. left.
      apply (linkage_errors_complete _ None 0 (S j) block' p).
      * exact Hat.
      * rewrite nth_error_app1 by lia. exact Hp.
      * rewrite Hheight, Hblock. lia.
      * congruence.
  - intros next later -> Hhash.
    assert (Hnext : nth_error (chain (run calls (constructor ticks0 calls0)))
                      (S (List.length before)) = Some next).
    { rewrite Hchain, nth_error_app2 by lia.
      replace (S (List.length before) - List.length before)%nat with 1%nat
        by lia.
      reflexivity. }
    destruct (built_link _ _ _ _ _ Hnext) as (p & Hp & Hlinked).
    rewrite Hchain, nth_error_app2, Nat.sub_diag in Hp by lia.
    simpl in Hp. injection Hp as <-.
    eexists. split; [exact Hres | ].
    apply in_or_app. left.
    apply (linkage_errors_complete _ None 0 (S (List.length before))
             next block').
    + rewrite nth_error_app2 by lia.
      replace (S (List.length before) - List.length before)%nat with 1%nat
        by lia.
      reflexivity.
    + exact Hat.
    + rewrite (Hheights (S (List.length before)) next).
      * lia.
      * rewrite nth_error_app2 by lia.
        replace (S (List.length before) - List.length before)%nat with 1%nat
          by lia.
        reflexivity.
    + congruence.
Qed.

(** *** A resolved submission *)

(** X15: [submitStar] resolves only when the message was less than 300
    seconds old and [bitcoinMessage.verify] answered true; the block it
    resolves with carries the address, message, signature and star, has
    the former length of the chain as height and is appended to the
    chain; the signature was checked once and the clock read twice. *)
Theorem submitStar_resolved (address message signature : string)
  (star : Star) (w w' : World) (b : Block) :
  submitStar address message signature star w = (Resolved b, w') ->
  (exists currentTime messageTime : Z,
      fst (Time_now w) = JS.Num currentTime
      /\ JS.parseInt_element
           (nth_error (JS.split ":" message) MESSAGE_TIME_INDEX)
         = JS.Num messageTime
      /\ currentTime - messageTime < 300)
  /\ bitcoinMessage_verify message address signature = Returns true
  /\ body b = StarData address message signature star
  /\ height b = Z.of_nat (List.length (chain w))
  /\ chain w' = (chain w ++ [b])%list
  /\ verify_calls w' = (message, address, signature) :: verify_calls w
  /\ ticks w' = S (S (ticks w)).
Proof.
  rewrite submitStar_gate.
  destruct (elapsed_in_window message w) eqn:Ewin; [ | discriminate].
  destruct (bitcoinMessage_verify message address signature)
    as [[ | ] | ] eqn:Ever; [ | discriminate | discriminate].
  intro Hrun.
  pose proof (addBlock_outcome
                (new_Block (StarData address message signature star))
                (snd (verify message address signature (snd (Time_now w)))))
    as Hout.
  cbv zeta in Hout. rewrite Hrun in Hout. cbn [fst snd] in Hout.
  destruct Hout as (Hticks & Hcalls & _ & _).
  apply addBlock_resolved in Hrun. destruct Hrun as (Hb & Hchain & _).
  split; [ | split; [reflexivity | ]].
  - unfold elapsed_in_window in Ewin.
    destruct (fst (Time_now w)) as [ | c]; [discriminate | ].
    destruct (JS.parseInt_element _) as [ | m]; [discriminate | ].
    exists c, m. repeat split. simpl in Ewin. apply Z.ltb_lt, Ewin.
  - split; [subst b; apply identify_body | ].
    split; [subst b; apply identify_height | ].
    split; [exact Hchain | ].
    split; [exact Hcalls | exact Hticks].
Qed.

(** *** Stars after a submission *)

(** X16: when [getBData] gives back the payload of every star block, a
    resolved [submitStar] adds its star at the end of what
    [getStarsByWalletAddress] resolves with for the submitting address,
    and changes nothing for any other address. *)
Theorem stars_after_submission (address message signature : string)
  (star : Star) (w w' : World) (b : Block) (owner : string) :
  (forall (blk : Block) (o m s : string) (st : Star),
      body blk = StarData o m s st ->
      Block_getBData blk = Some (StarData o m s st)) ->
  submitStar address message signature star w = (Resolved b, w') ->
  exists stars : list (option Star),
    fst (getStarsByWalletAddress owner w) = Resolved stars
    /\ fst (getStarsByWalletAddress owner w')
       = Resolved
           (stars ++ (if String.eqb address owner then [Some star] else []))%list.
Proof.
  intros Hdecode Hrun.
  assert (Hb : body b = StarData address message signature star
               /\ chain w' = (chain w ++ [b])%list).
  { rewrite submitStar_gate in Hrun.
    destruct (elapsed_in_window message w); [ | discriminate].
    destruct (bitcoinMessage_verify message address signature)
      as [[ | ] | ]; [ | discriminate | discriminate].
    apply addBlock_resolved in Hrun. destruct Hrun as (Hb & Hchain & _).
    split; [subst b; apply identify_body | exact Hchain]. }
  destruct Hb as [Hbody Hchain].
  eexists. split; [reflexivity | ].
  unfold getStarsByWalletAddress, bind, get_chain, ret. simpl fst.
  rewrite Hchain, map_app, filter_app, map_app. f_equal. f_equal.
  simpl. rewrite (Hdecode b _ _ _ _ Hbody). simpl.
  destruct (String.eqb address owner); reflexivity.
Qed.

(** *** The challenge message *)

Lemma split_field (field rest : string) :
  (forall c : ascii, In c (list_ascii_of_string field) -> c <> ":"%char) ->
  JS.split ":" (field ++ String ":" rest) = field :: JS.split ":" rest.
Proof.
  induction field as [ | c field IH]; intro Hno.
  - reflexivity.
  - simpl. destruct (Ascii.eqb_spec c ":") as [Heq | _].
    + exfalso. apply (Hno c); [left; reflexivity | exact Heq].
    + rewrite IH; [reflexivity | ].
      intros c' Hin. apply Hno. right. exact Hin.
Qed.

Lemma uint_no_colon (d : Decimal.uint) (c : ascii) :
  In c (list_ascii_of_string (NilEmpty.string_of_uint d)) -> c <> ":"%char.
Proof.
  induction d; simpl; intro Hin;
    [destruct Hin | destruct Hin as [<- | Hin]; [discriminate | auto] ..].
Qed.

Lemma Number_toString_no_colon (x : JS.Number) (c : ascii) :
  In c (list_ascii_of_string (JS.Number_toString x)) -> c <> ":"%char.
Proof.
  destruct x as [ | n]; simpl.
  - intros [<- | [<- | [<- | []]]]; discriminate.
  - unfold JS.Z_toString, NilZero.string_of_int, NilZero.string_of_uint.
    destruct (Z.to_int n) as [d | d]; destruct d; simpl;
      intro Hin;
      repeat (destruct Hin as [<- | Hin]; [discriminate | ]);
      try (destruct Hin);
      exact (uint_no_colon _ _ Hin).
Qed.

Lemma parseInt_Number_toString (x : JS.Number) :
  JS.parseInt (JS.Number_toString x) = x.
Proof.
  destruct x as [ | n]; [reflexivity | apply parseInt_Z_toString].
Qed.

Lemma challenge_fields (address : string) (time : JS.Number) :
  (forall c : ascii, In c (list_ascii_of_string address) -> c <> ":"%char) ->
  JS.split ":" (address ++ ":" ++ JS.Number_toString time ++ ":starRegistry")
  = [address; JS.Number_toString time; "starRegistry"].
Proof.
  intro Hno.
  change (address ++ ":" ++ JS.Number_toString time ++ ":starRegistry")
    with (address
          ++ String ":" (JS.Number_toString time
                         ++ String ":" "starRegistry")).
  rewrite (split_field address _ Hno).
  rewrite (split_field _ _ (Number_toString_no_colon time)).
  reflexivity.
Qed.

(** X17: for an address without a colon,
    [requestMessageOwnershipVerification] resolves with a message that
    [split(':')] cuts into the address, the time and [starRegistry],
    and whose second field [parseInt] reads back as the value of
    [Time.now()] that was written. *)
Theorem requested_message_round_trip (address : string) (w : World) :
  (forall c : ascii, In c (list_ascii_of_string address) -> c <> ":"%char) ->
  exists message : string,
    requestMessageOwnershipVerification address w
    = (Resolved message, snd (Time_now w))
    /\ JS.split ":" message
       = [address; JS.Number_toString (fst (Time_now w)); "starRegistry"]
    /\ JS.parseInt_element
         (nth_error (JS.split ":" message) MESSAGE_TIME_INDEX)
       = fst (Time_now w).
Proof.
  intro Hno.
  exists (address ++ ":" ++ JS.Number_toString (fst (Time_now w))
          ++ ":starRegistry").
  split; [ | split].
  - unfold requestMessageOwnershipVerification, bind, ret.
    destruct (Time_now w) as [time w1]. reflexivity.
  - apply challenge_fields, Hno.
  - rewrite (challenge_fields _ _ Hno). simpl.
    apply parseInt_Number_toString.
Qed.

(** X18: a message requested for an address without a colon and
    submitted at the next reading of the clock is rejected as expired
    when the two readings are 300 whole seconds or more apart;
    otherwise it is rejected for its signature when
    [bitcoinMessage.verify] answers false and handed to [_addBlock]
    when it answers true. *)
Theorem requested_message_window (address signature : string)
  (star : Star) (w w1 : World) (message : string) :
  (forall c : ascii, In c (list_ascii_of_string address) -> c <> ":"%char) ->
  1000 <= Date_getTime (ticks w) ->
  1000 <= Date_getTime (S (ticks w)) ->
  requestMessageOwnershipVerification address w = (Resolved message, w1) ->
  (Date_getTime (S (ticks w)) / 1000 - Date_getTime (ticks w) / 1000 >= 300 ->
   fst (submitStar address message signature star w1)
   = Rejected VALIDATION_TIME_EXCEEDED)
  /\ (Date_getTime (S (ticks w)) / 1000 - Date_getTime (ticks w) / 1000 < 300 ->
      (bitcoinMessage_verify message address signature = Returns false ->
       fst (submitStar address message signature star w1)
       = Rejected SIGNATURE_INVALID)
      /\ (bitcoinMessage_verify message address signature = Returns true ->
          submitStar address message signature star w1
          = _addBlock (new_Block (StarData address message signature star))
              (snd (verify message address signature (snd (Time_now w1)))))).
Proof.
  intros Hno Hms1 Hms2 Hreq.
  assert (Hmsg :
    message = address ++ ":" ++ JS.Number_toString (fst (Time_now w))
              ++ ":starRegistry"
    /\ w1 = snd (Time_now w)).
  { unfold requestMessageOwnershipVerification, bind, ret in Hreq.
    destruct (Time_now w) as [time w']. injection Hreq as <- <-.
    split; reflexivity. }
  destruct Hmsg as [-> ->].
  assert (Hwin :
    elapsed_in_window
      (address ++ ":" ++ JS.Number_toString (fst (Time_now w))
       ++ ":starRegistry") (snd (Time_now w))
    = (Date_getTime (S (ticks w)) / 1000 - Date_getTime (ticks w) / 1000
       <? 300)).
  { pose proof (Time_now_seconds w Hms1) as H1.
    pose proof (Time_now_seconds (snd (Time_now w)) Hms2) as H2.
    unfold elapsed_in_window.
    rewrite H2, (challenge_fields _ _ Hno).
    unfold MESSAGE_TIME_INDEX. cbn [nth_error JS.parseInt_element].
    rewrite parseInt_Number_toString, H1.
    reflexivity. }
  rewrite submitStar_gate, Hwin.
  split.
  - intro Hold.
    destruct (Z.ltb_spec (Date_getTime (S (ticks w)) / 1000
                          - Date_getTime (ticks w) / 1000) 300); [lia | ].
    reflexivity.
  - intro Hfresh.
    destruct (Z.ltb_spec (Date_getTime (S (ticks w)) / 1000
                          - Date_getTime (ticks w) / 1000) 300); [ | lia].
    split; intro Hv; rewrite Hv; reflexivity.
Qed.

(** *** A submission to a chain that validates *)

(** X19: on a chain that validates, [submitStar] has five outcomes:
    expired; invalid signature, when [bitcoinMessage.verify] returns
    false; never settled, the chain unchanged, when it throws; resolved
    with the new block, which is stamped with the second reading of the
    clock and appended, when it returns true and [validate] accepts the
    block; and rejected with the one content message of the new
    position, the chain unchanged, when [validate] does not. *)
Theorem submitStar_on_valid_chain (address message signature : string)
  (star : Star) (w : World) :
  validateChain (chain w) = Resolved [] ->
  (elapsed_in_window message w = false ->
   fst (submitStar address message signature star w)
   = Rejected VALIDATION_TIME_EXCEEDED)
  /\ (elapsed_in_window message w = true ->
      bitcoinMessage_verify message address signature = Returns false ->
      fst (submitStar address message signature star w)
      = Rejected SIGNATURE_INVALID)
  /\ (elapsed_in_window message w = true ->
      bitcoinMessage_verify message address signature = Throws ->
      fst (submitStar address message signature star w) = Pending
      /\ chain (snd (submitStar address message signature star w))
         = chain w)
  /\ (elapsed_in_window message w = true ->
      bitcoinMessage_verify message address signature = Returns true ->
      Block_validate
        (identify (chain w) (fst (Time_now (snd (Time_now w))))
           (new_Block (StarData address message signature star)))
      = true ->
      fst (submitStar address message signature star w)
      = Resolved
          (identify (chain w) (fst (Time_now (snd (Time_now w))))
             (new_Block (StarData address message signature star)))
      /\ chain (snd (submitStar address message signature star w))
         = (chain w
            ++ [identify (chain w) (fst (Time_now (snd (Time_now w))))
                  (new_Block (StarData address message signature star))])%list)
  /\ (elapsed_in_window message w = true ->
      bitcoinMessage_verify message address signature = Returns true ->
      Block_validate
        (identify (chain w) (fst (Time_now (snd (Time_now w))))
           (new_Block (StarData address message signature star)))
      = false ->
      fst (submitStar address message signature star w)
      = Rejected
          (ErrorLog
             [invalid_message (List.length (chain w))
                (identify (chain w) (fst (Time_now (snd (Time_now w))))
                   (new_Block (StarData address message signature star)))])
      /\ chain (snd (submitStar address message signature star w))
         = chain w).
Proof.
  intro Hclean.
  pose proof (addBlock_clean_cases
                (new_Block (StarData address message signature star))
                (snd (verify message address signature (snd (Time_now w))))
                Hclean)
    as [Hok Hbad].
  rewrite submitStar_gate.
  split; [intros ->; reflexivity | ].
  split; [intros -> ->; reflexivity | ].
  split; [intros -> ->; split; reflexivity | ].
  split; intros -> -> Hv; [exact (Hok Hv) | exact (Hbad Hv)].
Qed.

End Properties.

(** ** The properties at work on the scenario *)

#[local] Existing Instance Demo.collaborators.

Import Scenario.

(** The registration scenario: the challenge requested at second 1200
    and submitted, signed, at second 1400 commits a block at height 1
    that is linked to the genesis block. *)
Example scenario_registration :
  fst (requestMessageOwnershipVerification "addr1" fresh)
  = Resolved challenge
  /\ chain registered = [genesis; star_block]
  /\ previousBlockHash star_block = hash genesis.
Proof. vm_compute. repeat split. Qed.

(** On [forged] the candidate is rolled back; on [fresh] it is
    committed. *)
Lemma addBlock_commits_or_rolls_back_witness :
  (fst (_addBlock (new_Block (GenesisData "late")) forged)
   = Rejected (ErrorLog ["Block 0 hash (null) is invalid"])
   /\ chain (snd (_addBlock (new_Block (GenesisData "late")) forged))
      = chain forged)
  /\ (fst (_addBlock (new_Block (GenesisData "second")) fresh)
      = Resolved second_block
      /\ chain (snd (_addBlock (new_Block (GenesisData "second")) fresh))
         = [genesis; second_block]
      /\ nth_error
           (chain (snd (_addBlock (new_Block (GenesisData "second")) fresh)))
           1
         = Some second_block).
Proof.
  split.
  - apply (addBlock_commits_or_rolls_back
             (new_Block (GenesisData "late")) forged
             ["Block 0 hash (null) is invalid"]).
    vm_compute. reflexivity.
  - pose proof (addBlock_commits_or_rolls_back
                  (new_Block (GenesisData "second")) fresh []) as Hcommit.
    cbv iota in Hcommit. apply Hcommit.
    vm_compute. reflexivity.
Defined.

Lemma committed_hash_digests_other_fields_witness :
  hash genesis
  = Some (Demo.SHA256 (Demo.JSON_stringify (with_hash None genesis)))
  /\ hash star_block
     = Some (Demo.SHA256 (Demo.JSON_stringify (with_hash None star_block)))
  /\ hash genesis = hash genesis.
Proof.
  destruct (committed_hash_digests_other_fields (env := Demo.collaborators))
    as (Hcall & Hchain & Hsame).
  split; [ | split].
  - apply (Hcall (GenesisData "Genesis Block") blank fresh genesis).
    vm_compute. reflexivity.
  - apply (Hchain 0%nat []
             [Call_requestMessage "addr1";
              Call_submitStar "addr1" challenge
                (Demo.sign "addr1" challenge) "star-1"]
             star_block).
    vm_compute. right. left. reflexivity.
  - apply (Hsame 0%nat 0%nat [] [] [] [Call_requestMessage "addr1"]
             genesis genesis).
    + vm_compute. left. reflexivity.
    + vm_compute. left. reflexivity.
    + reflexivity.
Defined.

Lemma addBlock_identity_fields_witness :
  (height second_block = 1
   /\ time second_block = JS.Num 1200
   /\ previousBlockHash second_block = hash genesis
   /\ nth_error
        (chain (snd (_addBlock (new_Block (GenesisData "second")) fresh))) 1
      = Some second_block)
  /\ (exists (b : Block) (errorLog : list string),
         validateChain (chain forged ++ [b]) = Resolved errorLog
         /\ height b = 1
         /\ time b = JS.Num 1400
         /\ previousBlockHash b = None)
  /\ previousBlockHash genesis = None
  /\ height star_block = 1.
Proof.
  destruct (addBlock_identity_fields (env := Demo.collaborators))
    as (Hfields & Hrejected & Hfirst & Hindex).
  split; [ | split; [ | split]].
  - assert (Hrun :
      _addBlock (new_Block (GenesisData "second")) fresh
      = (Resolved second_block,
         snd (_addBlock (new_Block (GenesisData "second")) fresh)))
      by (vm_compute; reflexivity).
    destruct (Hfields _ _ _ _ Hrun) as (Hheight & Htime & Hprev & _ & Hlast).
    split; [exact Hheight | ].
    split; [exact Htime | ].
    split; [ | exact Hlast].
    apply (Hprev genesis). vm_compute. reflexivity.
  - assert (Hrun :
      _addBlock (new_Block (GenesisData "late")) forged
      = (Rejected (ErrorLog ["Block 0 hash (null) is invalid"]),
         snd (_addBlock (new_Block (GenesisData "late")) forged)))
      by (vm_compute; reflexivity).
    destruct (Hrejected _ _ _ _ Hrun)
      as (b & errorLog & _ & Hlog & Hheight & Htime & Hprev & _).
    exists b, errorLog.
    split; [exact Hlog | ].
    split; [exact Hheight | ].
    split; [exact Htime | ].
    apply (Hprev (new_Block (GenesisData "forged"))).
    vm_compute. reflexivity.
  - apply (Hfirst (GenesisData "Genesis Block") blank fresh genesis).
    + vm_compute. reflexivity.
    + reflexivity.
  - apply (Hindex 0%nat []
             [Call_requestMessage "addr1";
              Call_submitStar "addr1" challenge
                (Demo.sign "addr1" challenge) "star-1"]
             1%nat star_block).
    vm_compute. reflexivity.
Defined.

(** Exactly 300 seconds after the embedded time, with a signature that
    verifies. *)
Lemma submitStar_expired_witness :
  Demo.verify "addr1:900:starRegistry" "addr1"
    (Demo.sign "addr1" "addr1:900:starRegistry") = Returns true
  /\ fst (submitStar "addr1" "addr1:900:starRegistry"
            (Demo.sign "addr1" "addr1:900:starRegistry") "star-1" fresh)
     = Rejected VALIDATION_TIME_EXCEEDED
  /\ verify_calls
       (snd (submitStar "addr1" "addr1:900:starRegistry"
               (Demo.sign "addr1" "addr1:900:starRegistry") "star-1" fresh))
     = verify_calls fresh
  /\ chain
       (snd (submitStar "addr1" "addr1:900:starRegistry"
               (Demo.sign "addr1" "addr1:900:starRegistry") "star-1" fresh))
     = chain fresh.
Proof.
  split; [reflexivity | ].
  apply (submitStar_expired "addr1" "addr1:900:starRegistry"
           (Demo.sign "addr1" "addr1:900:starRegistry") "star-1" fresh
           1200 900).
  - vm_compute. reflexivity.
  - vm_compute. reflexivity.
  - lia.
Defined.

(** 299 seconds after the embedded time: with a signature made for
    another address, which verifies as false, and with a text that
    cannot be decoded as a signature, on which the check throws. *)
Lemma submitStar_signature_outcomes_witness :
  (fst (submitStar "addr1" "addr1:901:starRegistry"
          (Demo.sign "addr2" "addr1:901:starRegistry") "star-1" fresh)
   = Rejected SIGNATURE_INVALID
   /\ chain
        (snd (submitStar "addr1" "addr1:901:starRegistry"
                (Demo.sign "addr2" "addr1:901:starRegistry") "star-1" fresh))
      = chain fresh)
  /\ (fst (submitStar "addr1" "addr1:901:starRegistry" "scribble" "star-1"
             fresh)
      = Pending
      /\ fst (submitStar "addr1" "addr1:901:starRegistry" "scribble" "star-1"
                fresh)
         <> Rejected SIGNATURE_INVALID
      /\ verify_calls
           (snd (submitStar "addr1" "addr1:901:starRegistry" "scribble"
                   "star-1" fresh))
         = ("addr1:901:starRegistry", "addr1", "scribble")
           :: verify_calls fresh
      /\ chain
           (snd (submitStar "addr1" "addr1:901:starRegistry" "scribble"
                   "star-1" fresh))
         = chain fresh).
Proof.
  assert (Hnow : fst (Time_now fresh) = JS.Num 1200)
    by (vm_compute; reflexivity).
  assert (Hmsg :
    JS.parseInt_element
      (nth_error (JS.split ":" "addr1:901:starRegistry") MESSAGE_TIME_INDEX)
    = JS.Num 901)
    by (vm_compute; reflexivity).
  assert (Hfresh : 1200 - 901 < 300) by lia.
  assert (Hfalse :
    bitcoinMessage_verify "addr1:901:starRegistry" "addr1"
      (Demo.sign "addr2" "addr1:901:starRegistry") = Returns false)
    by (vm_compute; reflexivity).
  assert (Hthrows :
    bitcoinMessage_verify "addr1:901:starRegistry" "addr1" "scribble"
    = Throws)
    by (vm_compute; reflexivity).
  split.
  - exact (proj1 (submitStar_signature_outcomes "addr1"
                    "addr1:901:starRegistry"
                    (Demo.sign "addr2" "addr1:901:starRegistry") "star-1"
                    fresh 1200 901 Hnow Hmsg Hfresh)
             Hfalse).
  - exact (proj2 (submitStar_signature_outcomes "addr1"
                    "addr1:901:starRegistry" "scribble" "star-1"
                    fresh 1200 901 Hnow Hmsg Hfresh)
             Hthrows).
Defined.

(** A message without a colon, and one whose second field is a word. *)
Lemma submitStar_unparseable_time_witness :
  (fst (submitStar "addr1" "addr1:soon:starRegistry"
          (Demo.sign "addr1" "addr1:soon:starRegistry") "star-1" fresh)
   = Rejected VALIDATION_TIME_EXCEEDED
   /\ verify_calls
        (snd (submitStar "addr1" "addr1:soon:starRegistry"
                (Demo.sign "addr1" "addr1:soon:starRegistry") "star-1" fresh))
      = verify_calls fresh
   /\ chain
        (snd (submitStar "addr1" "addr1:soon:starRegistry"
                (Demo.sign "addr1" "addr1:soon:starRegistry") "star-1" fresh))
      = chain fresh)
  /\ JS.parseInt_element
       (nth_error (JS.split ":" "addr1") MESSAGE_TIME_INDEX) = JS.NaN.
Proof.
  destruct (submitStar_unparseable_time (env := Demo.collaborators))
    as (Hgate & Hcolon).
  split.
  - destruct (Hgate "addr1" "addr1:soon:starRegistry"
                (Demo.sign "addr1" "addr1:soon:starRegistry") "star-1" fresh)
      as (_ & Hrejected & _ & Hcalls & Hchain).
    + vm_compute. reflexivity.
    + split; [exact Hrejected | ]. split; [exact Hcalls | exact Hchain].
  - apply (Hcolon "addr1").
    intros c Hc. simpl in Hc.
    destruct Hc as [<- | [<- | [<- | [<- | [<- | []]]]]]; discriminate.
Defined.

Lemma lookups_fail_asymmetrically_witness :
  getBlockByHash (Some "unknown") registered
  = (Rejected NO_BLOCK_WITH_HASH, registered)
  /\ getBlockByHash (hash star_block) registered
     = (Resolved star_block, registered)
  /\ getBlockByHeight 7 registered = (Resolved None, registered).
Proof.
  destruct (lookups_fail_asymmetrically registered)
    as (Hmiss & Hhit & Hnone & _).
  split; [ | split].
  - apply (Hmiss (Some "unknown")).
    intros b Hb. vm_compute in Hb.
    destruct Hb as [<- | [<- | []]]; discriminate.
  - apply (Hhit (hash star_block) [genesis] [] star_block).
    + vm_compute. reflexivity.
    + reflexivity.
    + intros p Hp. vm_compute in Hp. destruct Hp as [<- | []].
      vm_compute. discriminate.
  - apply (Hnone 7).
    intros b Hb. vm_compute in Hb.
    destruct Hb as [<- | [<- | []]]; discriminate.
Defined.

Lemma stars_by_owner_in_order_witness :
  stars_of_owner "addr1" (chain registered) [Some "star-1"]
  /\ height genesis < height star_block.
Proof.
  destruct (stars_by_owner_in_order (env := Demo.collaborators))
    as (Hstars & Hascending).
  split.
  - destruct (Hstars "addr1" registered) as (stars & Hrun & Hspec & _).
    assert (Hlist : stars = [Some "star-1"]).
    { vm_compute in Hrun. injection Hrun as <-. reflexivity. }
    rewrite <- Hlist. exact Hspec.
  - apply (Hascending 0%nat []
             [Call_requestMessage "addr1";
              Call_submitStar "addr1" challenge
                (Demo.sign "addr1" challenge) "star-1"]
             0%nat 1%nat genesis star_block).
    + vm_compute. reflexivity.
    + vm_compute. reflexivity.
    + lia.
Defined.



(** ** Further properties at work on the scenario *)

Lemma Time_now_whole_seconds_witness :
  fst (Time_now fresh) = JS.Num 1200
  /\ fst (Time_now (env := epoch) blank) = JS.NaN.
Proof.
  assert (Hlate : 1000 <= Date_getTime (ticks fresh))
    by (unfold fresh; simpl; unfold Demo.Date_getTime; lia).
  assert (Hearly : 0 <= Date_getTime (Collaborators := epoch) (ticks blank)
                   < 1000)
    by (simpl; lia).
  split.
  - exact (proj1 (Time_now_whole_seconds fresh) Hlate).
  - exact (proj2 (Time_now_whole_seconds (env := epoch) blank) Hearly).
Defined.

Lemma validateChain_reports_only_faults_witness :
  (exists (i : nat) (block previousBlock : Block),
      (0 < i)%nat
      /\ nth_error [genesis; unlinked_block; unsealed_block] i = Some block
      /\ nth_error [genesis; unlinked_block; unsealed_block] (i - 1)
         = Some previousBlock
      /\ 0 < height block
      /\ previousBlockHash block <> hash previousBlock
      /\ linkage_message 1 unlinked_block genesis
         = linkage_message i block previousBlock)
  \/ (exists (i : nat) (block : Block),
         nth_error [genesis; unlinked_block; unsealed_block] i = Some block
         /\ Block_validate block = false
         /\ linkage_message 1 unlinked_block genesis
            = invalid_message i block).
Proof.
  assert (Hlog :
    validateChain [genesis; unlinked_block; unsealed_block]
    = Resolved [linkage_message 1 unlinked_block genesis;
                invalid_message 2 unsealed_block])
    by (vm_compute; reflexivity).
  exact (validateChain_reports_only_faults _ _
           (linkage_message 1 unlinked_block genesis) Hlog
           (or_introl eq_refl)).
Defined.

Lemma validateChain_clean_iff_witness :
  Block_validate star_block = true
  /\ previousBlockHash star_block = hash genesis.
Proof.
  assert (Hclean : validateChain [genesis; star_block] = Resolved [])
    by (vm_compute; reflexivity).
  destruct (proj1 (validateChain_clean_iff [genesis; star_block]) Hclean
              1%nat star_block eq_refl) as [Hok Hlink].
  split; [exact Hok | ].
  assert (Hpos : 0 < height star_block) by reflexivity.
  exact (proj2 (Hlink Hpos) genesis eq_refl).
Defined.

Lemma addBlock_on_valid_chain_witness :
  (fst (_addBlock (new_Block (GenesisData "second")) fresh)
   = Resolved second_block
   /\ chain (snd (_addBlock (new_Block (GenesisData "second")) fresh))
      = [genesis; second_block])
  /\ (fst (_addBlock (env := refusing)
             (new_Block (GenesisData "Genesis Block")) blank)
      = Rejected
          (ErrorLog
             [invalid_message 0
                (identify (env := refusing) [] (JS.Num 1000)
                   (new_Block (GenesisData "Genesis Block")))])
      /\ chain (snd (_addBlock (env := refusing)
                       (new_Block (GenesisData "Genesis Block")) blank))
         = []).
Proof.
  assert (Hfresh : validateChain (chain fresh) = Resolved [])
    by (vm_compute; reflexivity).
  assert (Haccepted :
    Block_validate
      (identify (chain fresh) (fst (Time_now fresh))
         (new_Block (GenesisData "second"))) = true)
    by (vm_compute; reflexivity).
  assert (Hblank :
    validateChain (env := refusing) (chain blank) = Resolved [])
    by reflexivity.
  split.
  - exact (proj1 (addBlock_on_valid_chain
                    (new_Block (GenesisData "second")) fresh Hfresh)
             Haccepted).
  - exact (proj2 (addBlock_on_valid_chain (env := refusing)
                    (new_Block (GenesisData "Genesis Block")) blank Hblank)
             eq_refl).
Defined.

Lemma faulty_chain_admits_nothing_witness :
  ((exists more : list string,
       fst (_addBlock (new_Block (GenesisData "late")) forged)
       = Rejected (ErrorLog (["Block 0 hash (null) is invalid"] ++ more)))
   /\ chain (snd (_addBlock (new_Block (GenesisData "late")) forged))
      = chain forged)
  /\ chain (run [Call_addBlock (GenesisData "late");
                 Call_submitStar "addr1" "addr1:1500:starRegistry"
                   (Demo.sign "addr1" "addr1:1500:starRegistry") "star-1"]
              forged)
     = chain forged.
Proof.
  assert (Hfaulty :
    validateChain (chain forged)
    = Resolved ["Block 0 hash (null) is invalid"])
    by (vm_compute; reflexivity).
  destruct (faulty_chain_admits_nothing forged _ _ Hfaulty) as [Hadd Hrun].
  split; [apply Hadd | apply Hrun].
Defined.

Lemma addBlock_on_ungrounded_chain_witness :
  validateChain (chain lifted) = Rejected TypeError
  /\ fst (_addBlock (new_Block (GenesisData "late")) lifted) = Pending
  /\ List.length (chain (snd (_addBlock (new_Block (GenesisData "late"))
                                lifted)))
     = 2%nat.
Proof.
  assert (Hpos : 0 < height (with_height 5 genesis)) by reflexivity.
  destruct (addBlock_on_ungrounded_chain (new_Block (GenesisData "late"))
              lifted (with_height 5 genesis) [] eq_refl Hpos)
    as (Hthrow & Hpending & Hchain).
  split; [exact Hthrow | ]. split; [exact Hpending | ].
  rewrite Hchain. reflexivity.
Defined.

Lemma built_chain_is_linked_witness :
  Block_validate star_block = true
  /\ exists previousBlock : Block,
       nth_error (chain registered) 0 = Some previousBlock
       /\ previousBlockHash star_block = hash previousBlock.
Proof.
  assert (Hat : nth_error (chain registered) 1 = Some star_block)
    by (vm_compute; reflexivity).
  exact (built_chain_is_linked 0 []
           [Call_requestMessage "addr1";
            Call_submitStar "addr1" challenge (Demo.sign "addr1" challenge)
              "star-1"]
           1 star_block Hat).
Defined.

Lemma getBlockByHash_inversion_witness :
  (registered = registered
   /\ In genesis (chain registered)
   /\ hash genesis = hash genesis)
  /\ (registered = registered
      /\ NO_BLOCK_WITH_HASH = NO_BLOCK_WITH_HASH
      /\ forall b : Block,
           In b (chain registered) -> hash b <> Some "unknown")
  /\ exists found : Block,
       getBlockByHash (hash star_block) registered
       = (Resolved found, registered)
       /\ hash found = hash star_block.
Proof.
  assert (Hhit :
    getBlockByHash (hash genesis) registered = (Resolved genesis, registered))
    by (vm_compute; reflexivity).
  assert (Hmiss :
    getBlockByHash (Some "unknown") registered
    = (Rejected NO_BLOCK_WITH_HASH, registered))
    by (vm_compute; reflexivity).
  assert (Hin : In star_block (chain registered))
    by (vm_compute; right; left; reflexivity).
  split; [ | split].
  - exact (proj1 (getBlockByHash_inversion (hash genesis) registered)
             genesis registered Hhit).
  - exact (proj1 (proj2 (getBlockByHash_inversion (Some "unknown")
                           registered))
             NO_BLOCK_WITH_HASH registered Hmiss).
  - exact (proj2 (proj2 (proj2 (getBlockByHash_inversion (hash star_block)
                                  registered)))
             star_block Hin eq_refl).
Defined.

Lemma tampering_breaks_a_link_witness :
  (exists (errorLog : list string) (previousBlock : Block),
      validateChain [genesis; relinked_star_block] = Resolved errorLog
      /\ nth_error [genesis] 0 = Some previousBlock
      /\ In (linkage_message 1 relinked_star_block previousBlock) errorLog)
  /\ (exists errorLog : list string,
         validateChain [rehashed_genesis; star_block] = Resolved errorLog
         /\ In (linkage_message 1 star_block rehashed_genesis) errorLog).
Proof.
  assert (Hlast : chain registered = ([genesis] ++ star_block :: [])%list)
    by (vm_compute; reflexivity).
  assert (Hfirst : chain registered = ([] ++ genesis :: [star_block])%list)
    by (vm_compute; reflexivity).
  assert (Hfilled : [genesis] <> []) by discriminate.
  assert (Hrelinked :
    previousBlockHash relinked_star_block <> previousBlockHash star_block)
    by (vm_compute; discriminate).
  assert (Hrehashed : hash rehashed_genesis <> hash genesis)
    by (vm_compute; discriminate).
  split.
  - exact (proj1 (tampering_breaks_a_link 0 []
                    [Call_requestMessage "addr1";
                     Call_submitStar "addr1" challenge
                       (Demo.sign "addr1" challenge) "star-1"]
                    [genesis] [] star_block relinked_star_block
                    Hlast eq_refl)
             Hfilled Hrelinked).
  - exact (proj2 (tampering_breaks_a_link 0 []
                    [Call_requestMessage "addr1";
                     Call_submitStar "addr1" challenge
                       (Demo.sign "addr1" challenge) "star-1"]
                    [] [star_block] genesis rehashed_genesis
                    Hfirst eq_refl)
             star_block [] eq_refl Hrehashed).
Defined.

Lemma submitStar_resolved_witness :
  (exists currentTime messageTime : Z,
      fst (Time_now requested) = JS.Num currentTime
      /\ JS.parseInt_element
           (nth_error (JS.split ":" challenge) MESSAGE_TIME_INDEX)
         = JS.Num messageTime
      /\ currentTime - messageTime < 300)
  /\ bitcoinMessage_verify challenge "addr1" (Demo.sign "addr1" challenge)
     = Returns true
  /\ body star_block
     = StarData "addr1" challenge (Demo.sign "addr1" challenge) "star-1"
  /\ height star_block = Z.of_nat (List.length (chain requested))
  /\ chain registered = (chain requested ++ [star_block])%list
  /\ verify_calls registered
     = (challenge, "addr1", Demo.sign "addr1" challenge)
       :: verify_calls requested
  /\ ticks registered = S (S (ticks requested)).
Proof.
  assert (Hrun :
    submitStar "addr1" challenge (Demo.sign "addr1" challenge) "star-1"
      requested
    = (Resolved star_block, registered))
    by (vm_compute; reflexivity).
  exact (submitStar_resolved _ _ _ _ _ _ _ Hrun).
Defined.

Lemma stars_after_submission_witness :
  (exists stars : list (option Star),
      fst (getStarsByWalletAddress "addr1" requested) = Resolved stars
      /\ fst (getStarsByWalletAddress "addr1" registered)
         = Resolved (stars ++ [Some "star-1"])%list)
  /\ (exists stars : list (option Star),
         fst (getStarsByWalletAddress "addr2" requested) = Resolved stars
         /\ fst (getStarsByWalletAddress "addr2" registered)
            = Resolved (stars ++ [])%list).
Proof.
  assert (Hdecode :
    forall (blk : Block) (o m s : string) (st : Star),
      body blk = StarData o m s st ->
      Block_getBData blk = Some (StarData o m s st)).
  { intros blk o m s st Hbody. simpl. unfold Demo.getBData.
    rewrite Hbody. reflexivity. }
  assert (Hrun :
    submitStar "addr1" challenge (Demo.sign "addr1" challenge) "star-1"
      requested
    = (Resolved star_block, registered))
    by (vm_compute; reflexivity).
  split.
  - exact (stars_after_submission _ _ _ _ _ _ _ "addr1" Hdecode Hrun).
  - exact (stars_after_submission _ _ _ _ _ _ _ "addr2" Hdecode Hrun).
Defined.

Lemma requested_message_round_trip_witness :
  exists message : string,
    requestMessageOwnershipVerification "addr1" fresh
    = (Resolved message, snd (Time_now fresh))
    /\ JS.split ":" message = ["addr1"; "1200"; "starRegistry"]
    /\ JS.parseInt_element
         (nth_error (JS.split ":" message) MESSAGE_TIME_INDEX)
       = JS.Num 1200.
Proof.
  assert (Hplain :
    forall c : ascii, In c (list_ascii_of_string "addr1") -> c <> ":"%char).
  { intros c Hc. simpl in Hc.
    destruct Hc as [<- | [<- | [<- | [<- | [<- | []]]]]]; discriminate. }
  exact (requested_message_round_trip "addr1" fresh Hplain).
Defined.

Lemma requested_message_window_witness :
  submitStar "addr1" challenge (Demo.sign "addr1" challenge) "star-1"
    requested
  = _addBlock
      (new_Block
         (StarData "addr1" challenge (Demo.sign "addr1" challenge) "star-1"))
      (snd (verify challenge "addr1" (Demo.sign "addr1" challenge)
              (snd (Time_now requested))))
  /\ fst (submitStar "addr1" challenge (Demo.sign "addr2" challenge) "star-1"
            requested)
     = Rejected SIGNATURE_INVALID
  /\ fst (submitStar (env := slow) "addr1" "addr1:1000:starRegistry"
            (Demo.sign "addr1" "addr1:1000:starRegistry") "star-1"
            (snd (Time_now (env := slow) blank)))
     = Rejected VALIDATION_TIME_EXCEEDED.
Proof.
  assert (Hplain :
    forall c : ascii, In c (list_ascii_of_string "addr1") -> c <> ":"%char).
  { intros c Hc. simpl in Hc.
    destruct Hc as [<- | [<- | [<- | [<- | [<- | []]]]]]; discriminate. }
  assert (Hms1 : 1000 <= Date_getTime (ticks fresh))
    by (unfold fresh; simpl; unfold Demo.Date_getTime; lia).
  assert (Hms2 : 1000 <= Date_getTime (S (ticks fresh)))
    by (unfold fresh; simpl; unfold Demo.Date_getTime; lia).
  assert (Hreq :
    requestMessageOwnershipVerification "addr1" fresh
    = (Resolved challenge, requested))
    by (vm_compute; reflexivity).
  assert (Hfresh :
    Date_getTime (S (ticks fresh)) / 1000 - Date_getTime (ticks fresh) / 1000
    < 300)
    by (vm_compute; reflexivity).
  assert (Hslow1 : 1000 <= Date_getTime (Collaborators := slow) (ticks blank))
    by (simpl; lia).
  assert (Hslow2 :
    1000 <= Date_getTime (Collaborators := slow) (S (ticks blank)))
    by (simpl; lia).
  assert (Hslowreq :
    requestMessageOwnershipVerification (env := slow) "addr1" blank
    = (Resolved "addr1:1000:starRegistry",
       snd (Time_now (env := slow) blank)))
    by (vm_compute; reflexivity).
  assert (Hold :
    Date_getTime (Collaborators := slow) (S (ticks blank)) / 1000
    - Date_getTime (Collaborators := slow) (ticks blank) / 1000 >= 300)
    by (vm_compute; intro H; discriminate H).
  split; [ | split].
  - exact (proj2 (proj2 (requested_message_window "addr1"
                           (Demo.sign "addr1" challenge) "star-1"
                           fresh requested challenge
                           Hplain Hms1 Hms2 Hreq) Hfresh)
             eq_refl).
  - exact (proj1 (proj2 (requested_message_window "addr1"
                           (Demo.sign "addr2" challenge) "star-1"
                           fresh requested challenge
                           Hplain Hms1 Hms2 Hreq) Hfresh)
             eq_refl).
  - exact (proj1 (requested_message_window (env := slow) "addr1"
                    (Demo.sign "addr1" "addr1:1000:starRegistry") "star-1"
                    blank _ "addr1:1000:starRegistry"
                    Hplain Hslow1 Hslow2 Hslowreq) Hold).
Defined.

Lemma submitStar_on_valid_chain_witness :
  (fst (submitStar "addr1" challenge (Demo.sign "addr1" challenge) "star-1"
          requested)
   = Resolved star_block
   /\ chain (snd (submitStar "addr1" challenge (Demo.sign "addr1" challenge)
                    "star-1" requested))
      = [genesis; star_block])
  /\ (fst (submitStar "addr1" challenge "scribble" "star-1" requested)
      = Pending
      /\ chain (snd (submitStar "addr1" challenge "scribble" "star-1"
                       requested))
         = chain requested).
Proof.
  assert (Hclean : validateChain (chain requested) = Resolved [])
    by (vm_compute; reflexivity).
  assert (Hwindow : elapsed_in_window challenge requested = true)
    by (vm_compute; reflexivity).
  assert (Hsigned :
    bitcoinMessage_verify challenge "addr1" (Demo.sign "addr1" challenge)
    = Returns true)
    by (vm_compute; reflexivity).
  assert (Hthrows :
    bitcoinMessage_verify challenge "addr1" "scribble" = Throws)
    by (vm_compute; reflexivity).
  assert (Haccepted :
    Block_validate
      (identify (chain requested) (fst (Time_now (snd (Time_now requested))))
         (new_Block
            (StarData "addr1" challenge (Demo.sign "addr1" challenge)
               "star-1")))
    = true)
    by (vm_compute; reflexivity).
  split.
  - exact (proj1 (proj2 (proj2 (proj2
                    (submitStar_on_valid_chain "addr1" challenge
                       (Demo.sign "addr1" challenge) "star-1"
                       requested Hclean))))
             Hwindow Hsigned Haccepted).
  - exact (proj1 (proj2 (proj2
                    (submitStar_on_valid_chain "addr1" challenge
                       "scribble" "star-1" requested Hclean)))
             Hwindow Hthrows).
Defined.
